(** * ChatService: problem generation, grading, progress and achievements

    A shallow embedding of [backend/main/src/chat/chat.service.ts].  The
    service is a NestJS class whose methods are [async] functions over a
    Prisma record store and an HTTP client; here a method is a function in
    a small state-and-exception monad over the tables it touches, the
    requests it sends and the calls it starts without awaiting them.

    The source holds several revisions of the class.  The current one (with
    [solveHistories], [checkAndCreateAchievement], [checkProgress]) is
    embedded at top level.  The earliest one, which keeps the grading outcome
    on the [problems] rows, has its [generateProblem] embedded in
    [Module Legacy], in plain state-passing style.  An intermediate copy
    differs from the current revision in not calling
    [checkAndCreateAchievement] and is not embedded separately. *)

From Stdlib Require Import List String Ascii Bool ZArith QArith Qminmax Qround Lia.
From Stdlib Require Import DecimalString Sorted.
Import ListNotations.

Local Open Scope string_scope.
Local Open Scope list_scope.
Local Open Scope Z_scope.

(** ** JavaScript numbers

    Every number the service computes is an integer count, a quotient of two
    counts, or such a quotient times one hundred.  A finite value is kept as
    the exact rational it denotes (binary rounding is not modelled); the
    non-finite results of [/] are kept as they are. *)

Inductive number : Type :=
| Fin (q : Q)
| Infinity
| NegInfinity
| NaN.

(** [a / b] on integer operands. *)
Definition js_div (a b : Z) : number :=
  if b =? 0 then
    if a =? 0 then NaN
    else if 0 <? a then Infinity else NegInfinity
  else Fin (Qred (Qdiv (inject_Z a) (inject_Z b))).

Definition Qltb (x y : Q) : bool := negb (Qle_bool y x).

(** [a < b] and [a > b]; any comparison with [NaN] is false. *)
Definition js_lt (a b : number) : bool :=
  match a, b with
  | NaN, _ | _, NaN => false
  | Fin x, Fin y => Qltb x y
  | NegInfinity, NegInfinity => false
  | NegInfinity, _ => true
  | _, NegInfinity => false
  | Infinity, _ => false
  | Fin _, Infinity => true
  end.

Definition js_gt (a b : number) : bool := js_lt b a.

(** [Math.max(a, b)]. *)
Definition Math_max (a b : number) : number :=
  match a, b with
  | NaN, _ | _, NaN => NaN
  | Fin x, Fin y => Fin (Qmax x y)
  | Infinity, _ | _, Infinity => Infinity
  | NegInfinity, y => y
  | x, NegInfinity => x
  end.

(** The order of the number line, without [NaN]. *)
Definition num_le (a b : number) : Prop :=
  match a, b with
  | NaN, _ | _, NaN => False
  | NegInfinity, _ => True
  | _, Infinity => True
  | Fin x, Fin y => Qle x y
  | _, _ => False
  end.

Definition is_NaN (a : number) : bool :=
  match a with NaN => true | _ => false end.

Definition js_mul100 (a : number) : number :=
  match a with
  | Fin q => Fin (Qred (q * 100))
  | other => other
  end.

Definition string_of_nat (n : nat) : string :=
  NilZero.string_of_uint (Nat.to_uint n).

(** [x.toFixed(2)]: the integer [n] nearest to [x * 100] (the larger one
    on a tie), printed with two decimals.  (The switch to exponent notation
    from 1e21 on is outside the values a rate takes.) *)
Definition toFixed2 (x : number) : string :=
  match x with
  | NaN => "NaN"
  | Infinity => "Infinity"
  | NegInfinity => "-Infinity"
  | Fin q =>
      let neg := Qltb q 0 in
      let a := if neg then Qopp q else q in
      let n := Qfloor (a * 100 + (1 # 2)) in
      let frac := Z.to_nat (n mod 100) in
      ((if neg then "-" else EmptyString) ++
       string_of_nat (Z.to_nat (n / 100)) ++ "." ++
       (if (frac <? 10)%nat then "0" else EmptyString) ++ string_of_nat frac)%string
  end.

(** ** Dates

    A [Date] read in the serving process's time zone: the three calendar
    fields the service compares, and the time within the day, which only
    matters for [orderBy createdAt]. *)

Record Date : Type := mkDate {
  getFullYear : Z;
  getMonth : Z;
  getDate : Z;
  msOfDay : Z
}.

Definition Date_ltb (a b : Date) : bool :=
  (getFullYear a <? getFullYear b)
  || ((getFullYear a =? getFullYear b)
      && ((getMonth a <? getMonth b)
          || ((getMonth a =? getMonth b)
              && ((getDate a <? getDate b)
                  || ((getDate a =? getDate b) && (msOfDay a <? msOfDay b)))))).

(** The calendar day of [a] lies strictly before the calendar day of [b]. *)
Definition dayBefore (a b : Date) : Prop :=
  getFullYear a < getFullYear b
  \/ (getFullYear a = getFullYear b
      /\ (getMonth a < getMonth b
          \/ (getMonth a = getMonth b /\ getDate a < getDate b))).

(** ** Rows of the record store *)

Module Users.
Record t : Type := mk { id : string; birth : Date; interest : string }.
End Users.

Module Problems.
Record t : Type := mk {
  id : string;
  userId : string;
  question : string;
  answer : string;
  imagePath : string;
  wholeText : string
}.
End Problems.

Module SolveHistories.
Record t : Type := mk {
  userId : string;
  problemId : string;
  isCorrect : option bool;
  feedback : string;
  voicePath : string
}.
End SolveHistories.

Module Progresses.
Record t : Type := mk {
  id : nat;
  userId : string;
  correct : Z;
  total : Z;
  createdAt : Date
}.
End Progresses.

Module Achievements.
Record t : Type := mk {
  id : nat;
  title : string;
  description : string;
  level : number
}.
End Achievements.

Module UserAchievements.
Record t : Type := mk { userId : string; achievementId : nat }.
End UserAchievements.

(** The tables.  A table is the list of its rows in insertion order. *)
Record Store : Type := mkStore {
  users : list Users.t;
  problems : list Problems.t;
  solveHistories : list SolveHistories.t;
  progresses : list Progresses.t;
  achievements : list Achievements.t;
  userAchievements : list UserAchievements.t
}.

(** ** Traffic with the inference service *)

(** The [feedback] member of the profile: the current revision puts the
    un-awaited [parentFeedbacks.findMany] query object there, the earlier
    one the empty string. *)
Inductive FeedbackField : Type :=
| ParentFeedbacksQuery (userId : string)
| EmptyText.

Record UserInfo : Type := mkUserInfo {
  age : Z;
  accuracy : number;
  interests : string;
  languageLevel : string;
  languageGoals : option string;
  feedback : FeedbackField
}.

Record MulterFile : Type := mkFile { buffer : string; originalname : string }.

Record FeedbackForm : Type := mkForm {
  form_problemId : string;
  form_answer : string;
  form_voice : MulterFile
}.

Inductive Body : Type :=
| Json (userInfo : UserInfo)
| Multipart (form : FeedbackForm).

Record HttpRequest : Type := mkRequest { url : string; body : Body }.

(** [response.data.data] of [generate_problem]. *)
Record ProblemData : Type := mkProblemData {
  pd_id : string;
  pd_question : string;
  pd_answer : string;
  pd_image : string;
  pd_image_path : string;
  pd_whole_text : string
}.

(** [response.data.data] of [generate_feedback]. *)
Record FeedbackData : Type := mkFeedbackData {
  is_correct : bool;
  fd_feedback : string;
  voice_path : string
}.

(** ** The service's world and its monad *)

(** A call that the source starts and does not await. *)
Inductive Task : Type :=
| SolveHistoriesCreate (row : SolveHistories.t)
| CheckProgress (userId : string) (isCorrect : bool).

Record World : Type := mkWorld {
  db : Store;
  sent : list HttpRequest;
  pending : list Task
}.

Inductive exn : Type :=
| TypeError (msg : string)
| Error (msg : string)
| AxiosError (msg : string)
| InternalServerErrorException (msg : string)
| PrismaClientKnownRequestError (code : string).

Inductive Result (A : Type) : Type :=
| Ok (a : A)
| Throw (e : exn).
Arguments Ok {A} a.
Arguments Throw {A} e.

Definition M (A : Type) : Type := World -> Result A * World.

Definition ret {A} (a : A) : M A := fun w => (Ok a, w).

Definition throw {A} (e : exn) : M A := fun w => (Throw e, w).

Definition bind {A B} (m : M A) (k : A -> M B) : M B :=
  fun w =>
    match m w with
    | (Ok a, w') => k a w'
    | (Throw e, w') => (Throw e, w')
    end.

(** [try { m } catch (error) { h error }] *)
Definition try_catch {A} (m : M A) (h : exn -> M A) : M A :=
  fun w =>
    match m w with
    | (Ok a, w') => (Ok a, w')
    | (Throw e, w') => h e w'
    end.

Definition query {A} (f : Store -> A) : M A := fun w => (Ok (f (db w)), w).

Definition write (f : Store -> Store) : M unit :=
  fun w => (Ok tt, mkWorld (f (db w)) (sent w) (pending w)).

(** Start a call without awaiting it. *)
Definition spawn (t : Task) : M unit :=
  fun w => (Ok tt, mkWorld (db w) (sent w) (pending w ++ [t])).

Declare Scope chat_scope.
Delimit Scope chat_scope with chat.
Notation "x <- m ;; k" := (bind m (fun x => k))
  (at level 100, m at next level, right associativity) : chat_scope.
Notation "m ;; k" := (bind m (fun _ => k))
  (at level 100, right associativity) : chat_scope.
Local Open Scope chat_scope.

Definition message (e : exn) : string :=
  match e with
  | TypeError m | Error m | AxiosError m
  | InternalServerErrorException m | PrismaClientKnownRequestError m => m
  end.

(** ** Table operations *)

(** The first greatest element: [orderBy ... desc] followed by taking the
    first row. *)
Fixpoint maxBy {A} (gt : A -> A -> bool) (l : list A) : option A :=
  match l with
  | [] => None
  | x :: r =>
      match maxBy gt r with
      | Some y => if gt y x then Some y else Some x
      | None => Some x
      end
  end.

(** The key a table gives a new row. *)
Definition nextId (ids : list nat) : nat := S (fold_right Nat.max 0%nat ids).

(** A nullable boolean column used as a condition. *)
Definition truthy (b : option bool) : bool :=
  match b with Some true => true | _ => false end.

Definition set_problems (f : list Problems.t -> list Problems.t) (s : Store) : Store :=
  mkStore (users s) (f (problems s)) (solveHistories s) (progresses s)
          (achievements s) (userAchievements s).

Definition set_solveHistories (f : list SolveHistories.t -> list SolveHistories.t)
  (s : Store) : Store :=
  mkStore (users s) (problems s) (f (solveHistories s)) (progresses s)
          (achievements s) (userAchievements s).

Definition set_progresses (f : list Progresses.t -> list Progresses.t) (s : Store) : Store :=
  mkStore (users s) (problems s) (solveHistories s) (f (progresses s))
          (achievements s) (userAchievements s).

Definition set_achievements (f : list Achievements.t -> list Achievements.t)
  (s : Store) : Store :=
  mkStore (users s) (problems s) (solveHistories s) (progresses s)
          (f (achievements s)) (userAchievements s).

Definition set_userAchievements (f : list UserAchievements.t -> list UserAchievements.t)
  (s : Store) : Store :=
  mkStore (users s) (problems s) (solveHistories s) (progresses s)
          (achievements s) (f (userAchievements s)).

(** [users.findUnique({ where: { id } })] *)
Definition users_findUnique (id : string) (s : Store) : option Users.t :=
  find (fun u => Users.id u =? id)%string (users s).

(** [solveHistories.findMany({ where: { userId } })] *)
Definition solveHistories_findMany (userId : string) (s : Store)
  : list SolveHistories.t :=
  filter (fun h => SolveHistories.userId h =? userId)%string (solveHistories s).

(** [problems.findUnique({ where: { id, userId } })] *)
Definition problems_findUnique (id userId : string) (s : Store)
  : option Problems.t :=
  find (fun p => (Problems.id p =? id)%string && (Problems.userId p =? userId)%string)
       (problems s).

(** [problems.create]: [id] is the primary key, a second row with the same
    key is refused. *)
Definition problems_create (row : Problems.t) : M unit :=
  fun w =>
    if existsb (fun p => Problems.id p =? Problems.id row)%string (problems (db w))
    then (Throw (PrismaClientKnownRequestError "P2002"), w)
    else write (set_problems (fun t => t ++ [row])) w.

Definition achievements_find (id : nat) (s : Store) : option Achievements.t :=
  find (fun a => Nat.eqb (Achievements.id a) id) (achievements s).

(** [where: { userId }, include: { achievement: true }]: the user's links,
    each with the achievement it refers to. *)
Definition userAchievements_include (userId : string) (s : Store)
  : list (UserAchievements.t * Achievements.t) :=
  flat_map
    (fun ua =>
       if (UserAchievements.userId ua =? userId)%string then
         match achievements_find (UserAchievements.achievementId ua) s with
         | Some a => [(ua, a)]
         | None => []
         end
       else [])
    (userAchievements s).

Definition higherLevel (x y : UserAchievements.t * Achievements.t) : bool :=
  js_gt (Achievements.level (snd x)) (Achievements.level (snd y)).

(** [userAchievements.findFirst({ where: { userId }, include: { achievement:
    true }, orderBy: { achievement: { level: 'desc' } } })] *)
Definition userAchievements_findFirst (userId : string) (s : Store)
  : option (UserAchievements.t * Achievements.t) :=
  maxBy higherLevel (userAchievements_include userId s).

(** A row after [update({ where: { id }, data: { title, description,
    level } })]. *)
Definition updated (id : nat) (title description : string) (level : number)
  (a : Achievements.t) : Achievements.t :=
  if Nat.eqb (Achievements.id a) id
  then Achievements.mk id title description level
  else a.

(** [achievements.update({ where: { id }, data: { title, description, level } })] *)
Definition achievements_update (id : nat) (title description : string)
  (level : number) : M unit :=
  write (set_achievements (map (updated id title description level))).

(** [achievements.create({ data: { title, description, level } })] *)
Definition achievements_create (title description : string) (level : number)
  : M Achievements.t :=
  fun w =>
    let row := Achievements.mk (nextId (map Achievements.id (achievements (db w))))
                               title description level in
    (Ok row, mkWorld (set_achievements (fun t => t ++ [row]) (db w)) (sent w) (pending w)).

(** [userAchievements.create({ data: { userId, achievementId } })] *)
Definition userAchievements_create (userId : string) (achievementId : nat) : M unit :=
  write (set_userAchievements (fun t => t ++ [UserAchievements.mk userId achievementId])).

(** [progresses.findFirst({ where: { userId }, orderBy: { createdAt: 'desc' } })] *)
Definition progresses_findFirst (userId : string) (s : Store) : option Progresses.t :=
  maxBy (fun x y => Date_ltb (Progresses.createdAt y) (Progresses.createdAt x))
        (filter (fun p => Progresses.userId p =? userId)%string (progresses s)).

(** [progresses.update({ where: { id }, data: { correct, total } })] *)
Definition progresses_update (id : nat) (correct total : Z) : M (option Progresses.t) :=
  fun w =>
    let upd p := Progresses.mk (Progresses.id p) (Progresses.userId p) correct total
                               (Progresses.createdAt p) in
    (Ok (option_map upd (find (fun p => Nat.eqb (Progresses.id p) id) (progresses (db w)))),
     mkWorld (set_progresses
                (map (fun p => if Nat.eqb (Progresses.id p) id then upd p else p))
                (db w))
             (sent w) (pending w)).

(** ** The service *)

Section ChatService.

(** [configService.get('AI_SERVER_URL')] *)
Variable AI_SERVER_URL : string.

(** What [new Date()], and the store's [createdAt] default, read during the
    call. *)
Variable now : Date.

(** The inference service: for a request body, the error message of a failed
    exchange or [response.data.data] of a successful one. *)
Variable postGenerateProblem : UserInfo -> string + ProblemData.
Variable postGenerateFeedback : FeedbackForm -> string + FeedbackData.

Variable JSON_stringify : string -> string.

(** [firstValueFrom(httpService.post(url, data))] *)
Definition post_problem (u : string) (data : UserInfo) : M ProblemData :=
  fun w =>
    let w' := mkWorld (db w) (sent w ++ [mkRequest u (Json data)]) (pending w) in
    match postGenerateProblem data with
    | inl msg => (Throw (AxiosError msg), w')
    | inr d => (Ok d, w')
    end.

Definition post_feedback (u : string) (form : FeedbackForm) : M FeedbackData :=
  fun w =>
    let w' := mkWorld (db w) (sent w ++ [mkRequest u (Multipart form)]) (pending w) in
    match postGenerateFeedback form with
    | inl msg => (Throw (AxiosError msg), w')
    | inr d => (Ok d, w')
    end.

(** [progresses.create({ data: { userId, correct, total } })] *)
Definition progresses_create (userId : string) (correct total : Z) : M unit :=
  write (set_progresses
           (fun t => t ++ [Progresses.mk (nextId (map Progresses.id t))
                                         userId correct total now])).

Definition achievement_title (rate : number) : string :=
  ("정답률 " ++ toFixed2 (js_mul100 rate) ++ "% 달성")%string.

Definition achievement_description (rate : number) : string :=
  ("정답률 최고기록 달성! 주어진 문제의 " ++ toFixed2 (js_mul100 rate)
   ++ "% 정답을 맞췄어요.")%string.

(** [solveHistories.reduce((acc, cur) => (cur.isCorrect ? acc + 1 : acc), 0)] *)
Definition countCorrect (hs : list SolveHistories.t) : Z :=
  fold_left (fun acc cur => if truthy (SolveHistories.isCorrect cur) then acc + 1 else acc)
            hs 0.

(** [total === 0 ? 0 : correct / total] *)
Definition answerRate (hs : list SolveHistories.t) : number :=
  let correct := countCorrect hs in
  let total := Z.of_nat (List.length hs) in
  if total =? 0 then Fin 0 else js_div correct total.

Definition checkAndCreateAchievement (userId : string) (newAnswerRate : number)
  : M unit :=
  highestAnsRateAchievement <- query (userAchievements_findFirst userId) ;;
  match highestAnsRateAchievement with
  | Some (_, achievement) =>
      if js_gt newAnswerRate (Achievements.level achievement) then
        achievements_update (Achievements.id achievement)
                            (achievement_title newAnswerRate)
                            (achievement_description newAnswerRate)
                            newAnswerRate
      else ret tt
  | None =>
      newHighAnsRateAchievement <-
        achievements_create (achievement_title newAnswerRate)
                            (achievement_description newAnswerRate)
                            newAnswerRate ;;
      userAchievements_create userId (Achievements.id newHighAnsRateAchievement)
  end.

Definition sameDay (a b : Date) : bool :=
  (getDate a =? getDate b) && (getMonth a =? getMonth b)
  && (getFullYear a =? getFullYear b).

Definition checkProgress (userId : string) (isCorrect : bool)
  : M (option Progresses.t) :=
  user <- query (users_findUnique userId) ;;
  match user with
  | None => throw (TypeError "Cannot read properties of null (reading 'id')")
  | Some user =>
      prog <- query (progresses_findFirst (Users.id user)) ;;
      match prog with
      | None => ret None
      | Some prog =>
          let cur := now in
          if sameDay (Progresses.createdAt prog) cur then
            progresses_update (Progresses.id prog)
              (if isCorrect then Progresses.correct prog + 1 else Progresses.correct prog)
              (Progresses.total prog + 1)
          else
            solveHistories <- query (solveHistories_findMany (Users.id user)) ;;
            let correct := countCorrect solveHistories in
            let total := Z.of_nat (List.length solveHistories) in
            progresses_create (Users.id user) correct total ;;
            ret None
      end
  end.

(** The object a method hands back: its members in order. *)
Definition JsObject : Type := list (string * string).

Definition generateProblem (userId : string) : M JsObject :=
  user <- query (users_findUnique userId) ;;
  match user with
  | None => throw (TypeError "Cannot read properties of null (reading 'birth')")
  | Some user =>
      let cur := now in
      let birth := Users.birth user in
      let month :=
        Z.abs ((getFullYear cur - getFullYear birth) * 12
               + (getMonth cur - getMonth birth)) in
      solveHistories <- query (solveHistories_findMany (Users.id user)) ;;
      let answerRate := answerRate solveHistories in
      checkAndCreateAchievement (Users.id user) answerRate ;;
      let languageLevel := "초급" in
      let parentFeedback := ParentFeedbacksQuery (Users.id user) in
      let data :=
        mkUserInfo month answerRate (Users.interest user) languageLevel None
                   parentFeedback in
      let url := (AI_SERVER_URL ++ "/chat/generate_problem")%string in
      response <- post_problem url data ;;
      problems_create
        (Problems.mk (pd_id response) (Users.id user) (pd_question response)
                     (pd_answer response) (pd_image_path response)
                     (pd_whole_text response)) ;;
      ret [("problemId", pd_id response);
           ("question", pd_question response);
           ("image", pd_image response)]
  end.

Definition generateFeedback (problemId : string) (user : Users.t)
  (voice : MulterFile) : M FeedbackData :=
  problem <- query (problems_findUnique problemId (Users.id user)) ;;
  match problem with
  | None => throw (Error "Problem not found")
  | Some problem =>
      let form :=
        mkForm problemId (JSON_stringify (Problems.answer problem)) voice in
      try_catch
        (response <- post_feedback (AI_SERVER_URL ++ "/chat/generate_feedback")%string
                                   form ;;
         spawn (SolveHistoriesCreate
                  (SolveHistories.mk (Users.id user) problemId
                                     (Some (is_correct response))
                                     (fd_feedback response)
                                     (voice_path response))) ;;
         spawn (CheckProgress (Users.id user) (is_correct response)) ;;
         ret response)
        (fun error => throw (InternalServerErrorException (message error)))
  end.

(** *** Calls that were started and not awaited

    Each of them later completes, or fails (or is never carried out), on its
    own; nothing observes its outcome.  [settle] runs the started calls in
    the order they were started, each with the fate given for it. *)

Inductive Fate : Type := Completes | Fails.

Definition runTask (f : Fate) (t : Task) (w : World) : World :=
  match f, t with
  | Fails, _ => w
  | Completes, SolveHistoriesCreate row =>
      mkWorld (set_solveHistories (fun tbl => tbl ++ [row]) (db w)) (sent w) (pending w)
  | Completes, CheckProgress userId isCorrect =>
      snd (checkProgress userId isCorrect w)
  end.

Fixpoint runTasks (fates : list Fate) (ts : list Task) (w : World) : World :=
  match ts with
  | [] => w
  | t :: ts' =>
      match fates with
      | f :: fates' => runTasks fates' ts' (runTask f t w)
      | [] => runTasks [] ts' (runTask Completes t w)
      end
  end.

Definition settle (fates : list Fate) (w : World) : World :=
  runTasks fates (pending w) (mkWorld (db w) (sent w) []).

(** What the client of a request sees, and the world once everything the
    request started has settled. *)
Definition serve {A} (m : M A) (fates : list Fate) (w : World) : Result A * World :=
  let (r, w') := m w in (r, settle fates w').

End ChatService.

Arguments checkAndCreateAchievement : simpl never.

(** ** The earlier revision

    [generateProblem] of the earlier revision of the class: the grading
    outcome lives on the [problems] rows, the rate is taken over the twenty
    newest of them, and no achievement is kept. *)

Module Legacy.

Module Problems.
Record t : Type := mk {
  id : string;
  userId : string;
  question : string;
  answer : string;
  imagePath : string;
  wholeText : string;
  isCorrect : option bool;
  createdAt : Date
}.
End Problems.

Record Store : Type := mkStore {
  users : list Users.t;
  problems : list Problems.t
}.

Record World : Type := mkWorld {
  db : Store;
  sent : list HttpRequest
}.

Fixpoint insertDesc (p : Problems.t) (l : list Problems.t) : list Problems.t :=
  match l with
  | [] => [p]
  | q :: r =>
      if Date_ltb (Problems.createdAt p) (Problems.createdAt q)
      then q :: insertDesc p r
      else p :: l
  end.

(** [orderBy: { createdAt: 'desc' }] *)
Definition sortDesc (l : list Problems.t) : list Problems.t :=
  fold_right insertDesc [] l.

(** [problems.findMany({ where: { userId }, orderBy: { createdAt: 'desc' },
    take: 20 })] *)
Definition problems_findMany (userId : string) (s : Store) : list Problems.t :=
  firstn 20
    (sortDesc (filter (fun p => Problems.userId p =? userId)%string (problems s))).

(** [problems.reduce((acc, cur) => acc + (cur.isCorrect ? 1 : 0), 0) /
    problems.length] *)
Definition answerRate (ps : list Problems.t) : number :=
  js_div (fold_left (fun acc cur => acc + (if truthy (Problems.isCorrect cur) then 1 else 0))
                    ps 0)
         (Z.of_nat (List.length ps)).

Section ChatService.

Variable AI_SERVER_URL : string.
Variable now : Date.
Variable postGenerateProblem : UserInfo -> string + ProblemData.

Definition generateProblem (userId : string) (w : World) : Result JsObject * World :=
  match find (fun u => Users.id u =? userId)%string (users (db w)) with
  | None =>
      (Throw (TypeError "Cannot read properties of null (reading 'birth')"), w)
  | Some user =>
      let cur := now in
      let birth := Users.birth user in
      let month :=
        Z.abs ((getFullYear cur - getFullYear birth) * 12
               + (getMonth cur - getMonth birth)) in
      let problems := problems_findMany (Users.id user) (db w) in
      let answerRate := answerRate problems in
      let languageLevel := "초급" in
      let parentFeedback := EmptyText in
      let data :=
        mkUserInfo month answerRate (Users.interest user) languageLevel None
                   parentFeedback in
      let url := (AI_SERVER_URL ++ "/generate_problem")%string in
      let w1 := mkWorld (db w) (sent w ++ [mkRequest url (Json data)]) in
      match postGenerateProblem data with
      | inl msg => (Throw (AxiosError msg), w1)
      | inr response =>
          if existsb (fun p => Problems.id p =? pd_id response)%string
                     (Legacy.problems (db w1))
          then (Throw (PrismaClientKnownRequestError "P2002"), w1)
          else
            let row :=
              Problems.mk (pd_id response) (Users.id user) (pd_question response)
                          (pd_answer response) (pd_image_path response)
                          (pd_whole_text response) None now in
            (Ok [("question", pd_question response); ("image", pd_image response)],
             mkWorld (mkStore (users (db w1)) (Legacy.problems (db w1) ++ [row]))
                     (sent w1))
      end
  end.

End ChatService.

End Legacy.

(** ** Observations the statements are written with *)

(** The level of the user's best achievement, if the user has one. *)
Definition level_of (userId : string) (s : Store) : option number :=
  option_map (fun x => Achievements.level (snd x))
             (userAchievements_findFirst userId s).

(** Every stored level is a number. *)
Definition levels_ok (s : Store) : Prop :=
  forall a, In a (achievements s) -> is_NaN (Achievements.level a) = false.

(** Successive calls of [checkAndCreateAchievement], each for some user
    with some rate. *)
Definition evaluateAll (calls : list (string * number)) (w : World) : World :=
  fold_left (fun w c => snd (checkAndCreateAchievement (fst c) (snd c) w)) calls w.

(** The user's attempts, and the correct ones among them. *)
Definition attemptsOf (userId : string) (s : Store) : list SolveHistories.t :=
  filter (fun h => SolveHistories.userId h =? userId)%string (solveHistories s).

Definition correctAttemptsOf (userId : string) (s : Store) : list SolveHistories.t :=
  filter (fun h => (SolveHistories.userId h =? userId)%string
                   && truthy (SolveHistories.isCorrect h))
         (solveHistories s).

(** A member of a returned object. *)
Fixpoint member (k : string) (o : JsObject) : option string :=
  match o with
  | [] => None
  | (k', v) :: r => if (k' =? k)%string then Some v else member k r
  end.

(** ** Sample data *)

Definition sample_now : Date := mkDate 2024 5 10 36000000.

Definition alice : Users.t := Users.mk "alice" (mkDate 2020 1 15 0) "dinosaurs".

Definition store_alice : Store := mkStore [alice] [] [] [] [] [].

Definition world_alice : World := mkWorld store_alice [] [].

Definition attempt (u : string) (b : option bool) : SolveHistories.t :=
  SolveHistories.mk u "p" b "fb" "voice.wav".

Definition sample_attempts : list SolveHistories.t :=
  [attempt "alice" (Some true); attempt "bob" (Some true);
   attempt "alice" (Some true); attempt "alice" (Some false);
   attempt "alice" None].

Definition bucket_today : Progresses.t :=
  Progresses.mk 1 "alice" 3 5 (mkDate 2024 5 10 1000).

Definition bucket_yesterday : Progresses.t :=
  Progresses.mk 1 "alice" 3 5 (mkDate 2024 5 9 1000).

Definition world_today : World :=
  mkWorld (mkStore [alice] [] sample_attempts [bucket_today] [] []) [] [].

Definition world_yesterday : World :=
  mkWorld (mkStore [alice] [] sample_attempts [bucket_yesterday] [] []) [] [].

Definition problem_alice : Problems.t :=
  Problems.mk "p1" "alice" "What is this?" "a dinosaur" "img/p1.png" "text".

Definition bob : Users.t := Users.mk "bob" (mkDate 2019 7 2 0) "trains".

Definition world_graded : World :=
  mkWorld (mkStore [alice; bob] [problem_alice] sample_attempts [bucket_today] [] [])
          [] [].

Definition sample_voice : MulterFile := mkFile "RIFF" "answer.wav".

Definition grader_up (_ : FeedbackForm) : string + FeedbackData :=
  inr (mkFeedbackData true "Well done" "voices/1.wav").

Definition grader_down (_ : FeedbackForm) : string + FeedbackData :=
  inl "connect ECONNREFUSED".

Definition generator_up (_ : UserInfo) : string + ProblemData :=
  inr (mkProblemData "p2" "What colour is it?" "green" "<png>" "img/p2.png" "text").

Definition generator_down (_ : UserInfo) : string + ProblemData :=
  inl "Request failed with status code 500".

Definition quote (a : string) : string := ("'" ++ a ++ "'")%string.

Definition legacy_world_alice : Legacy.World :=
  Legacy.mkWorld (Legacy.mkStore [alice] []) [].

(** The [accuracy] member of each profile sent so far. *)
Definition accuracies (reqs : list HttpRequest) : list number :=
  flat_map (fun r => match body r with
                     | Json info => [accuracy info]
                     | Multipart _ => []
                     end) reqs.

(** ** Further observations *)

(** A rate between 0 and 1. *)
Definition unit_rate (a : number) : Prop :=
  match a with
  | Fin q => (0 <= q)%Q /\ (q <= 1)%Q
  | _ => False
  end.

(** Every progress row counts no more correct attempts than attempts. *)
Definition progress_ok (s : Store) : Prop :=
  forall p, In p (progresses s) ->
            0 <= Progresses.correct p <= Progresses.total p.

(** The progress row after [update({ where: { id }, data: { correct, total } })]. *)
Definition bumped (id : nat) (correct total : Z) (p : Progresses.t) : Progresses.t :=
  if Nat.eqb (Progresses.id p) id
  then Progresses.mk (Progresses.id p) (Progresses.userId p) correct total
                     (Progresses.createdAt p)
  else p.


(** The links of a user. *)
Definition linksOf (userId : string) (s : Store) : list UserAchievements.t :=
  filter (fun ua => UserAchievements.userId ua =? userId)%string (userAchievements s).

(** Every link refers to an achievement on record, and no achievement is
    linked to two users. *)
Definition links_wf (s : Store) : Prop :=
  (forall lk, In lk (userAchievements s) ->
              achievements_find (UserAchievements.achievementId lk) s <> None)
  /\ (forall l1 l2, In l1 (userAchievements s) -> In l2 (userAchievements s) ->
                    UserAchievements.achievementId l1 = UserAchievements.achievementId l2 ->
                    UserAchievements.userId l1 = UserAchievements.userId l2).

(** The user has exactly one link, and it refers to an achievement on
    record. *)
Definition one_link (userId : string) (s : Store) : Prop :=
  exists lk, linksOf userId s = [lk]
             /\ achievements_find (UserAchievements.achievementId lk) s <> None.

(** ** The intermediate revision

    [generateProblem] of the copy of the class that has the [total === 0]
    test and returns [problemId], and does not call
    [checkAndCreateAchievement]. *)

Module Intermediate.

Section ChatService.

Variable AI_SERVER_URL : string.
Variable now : Date.
Variable postGenerateProblem : UserInfo -> string + ProblemData.

Definition generateProblem (userId : string) : M JsObject :=
  user <- query (users_findUnique userId) ;;
  match user with
  | None => throw (TypeError "Cannot read properties of null (reading 'birth')")
  | Some user =>
      let cur := now in
      let birth := Users.birth user in
      let month :=
        Z.abs ((getFullYear cur - getFullYear birth) * 12
               + (getMonth cur - getMonth birth)) in
      solveHistories <- query (solveHistories_findMany (Users.id user)) ;;
      let correct := countCorrect solveHistories in
      let total := Z.of_nat (List.length solveHistories) in
      let answerRate := if total =? 0 then Fin 0 else js_div correct total in
      let languageLevel := "초급" in
      let parentFeedback := ParentFeedbacksQuery (Users.id user) in
      let data :=
        mkUserInfo month answerRate (Users.interest user) languageLevel None
                   parentFeedback in
      let url := (AI_SERVER_URL ++ "/chat/generate_problem")%string in
      response <- post_problem postGenerateProblem url data ;;
      problems_create
        (Problems.mk (pd_id response) (Users.id user) (pd_question response)
                     (pd_answer response) (pd_image_path response)
                     (pd_whole_text response)) ;;
      ret [("problemId", pd_id response);
           ("question", pd_question response);
           ("image", pd_image response)]
  end.

End ChatService.

End Intermediate.

(** The first row is not older than the second. *)
Definition notOlder (p q : Legacy.Problems.t) : Prop :=
  Date_ltb (Legacy.Problems.createdAt p) (Legacy.Problems.createdAt q) = false.

(** The problems of a user, in the earlier revision's table. *)
Definition legacyProblemsOf (userId : string) (s : Legacy.Store)
  : list Legacy.Problems.t :=
  filter (fun p => Legacy.Problems.userId p =? userId)%string (Legacy.problems s).

(** ** The earlier revision: grading

    [communicateWithAI] and [generateFeedback] of the earlier revision.  The
    rows here carry the grading columns next to those [Legacy.Problems.t]
    has; the update of the row is awaited before the method returns. *)

Module LegacyGrading.

Module Problems.
Record t : Type := mk {
  id : string;
  userId : string;
  question : string;
  answer : string;
  imagePath : string;
  wholeText : string;
  isCorrect : option bool;
  voicePath : option string;
  feedback : option string;
  createdAt : Date
}.
End Problems.

Record World : Type := mkWorld {
  problems : list Problems.t;
  sent : list HttpRequest
}.

(** [response.data.data] and [response.data] of [generate_feedback]. *)
Record Graded : Type := mkGraded {
  is_correct : bool;
  saved_path : string;
  feedback : string
}.

Record Envelope : Type := mkEnvelope { data : Graded }.

(** [problems.update({ where: { id }, data: { isCorrect, voicePath,
    feedback } })] on one row. *)
Definition graded (id : string) (g : Graded) (p : Problems.t) : Problems.t :=
  if (Problems.id p =? id)%string
  then Problems.mk (Problems.id p) (Problems.userId p) (Problems.question p)
                   (Problems.answer p) (Problems.imagePath p) (Problems.wholeText p)
                   (Some (is_correct g)) (Some (saved_path g)) (Some (feedback g))
                   (Problems.createdAt p)
  else p.

Section ChatService.

Variable AI_SERVER_URL : string.
Variable JSON_stringify : string -> string.


Variable postGenerateFeedback : FeedbackForm -> string + Envelope.

Definition generateFeedback (problemId : string) (user : Users.t)
  (voice : MulterFile) (w : World) : Result Envelope * World :=
  match find (fun p => (Problems.id p =? problemId)%string
                       && (Problems.userId p =? Users.id user)%string)
             (problems w) with
  | None => (Throw (Error "Problem not found"), w)
  | Some problem =>
      let form :=
        mkForm problemId (JSON_stringify (Problems.answer problem)) voice in
      let w1 :=
        mkWorld (problems w)
                (sent w ++ [mkRequest (AI_SERVER_URL ++ "/generate_feedback")%string
                                      (Multipart form)]) in
      match postGenerateFeedback form with
      | inl msg => (Throw (InternalServerErrorException msg), w1)
      | inr response =>
          (Ok response,
           mkWorld (map (graded problemId (data response)) (problems w1)) (sent w1))
      end
  end.

End ChatService.

End LegacyGrading.

Definition legacy_problem_alice : LegacyGrading.Problems.t :=
  LegacyGrading.Problems.mk "p1" "alice" "What is this?" "a dinosaur" "img/p1.png"
                            "text" None None None (mkDate 2024 5 9 0).

Definition legacy_problem_bob : LegacyGrading.Problems.t :=
  LegacyGrading.Problems.mk "p7" "bob" "What is that?" "a train" "img/p7.png"
                            "text" None None None (mkDate 2024 5 8 0).

Definition legacy_grading_world : LegacyGrading.World :=
  LegacyGrading.mkWorld [legacy_problem_alice; legacy_problem_bob] [].

Definition legacy_grader_up (_ : FeedbackForm) : string + LegacyGrading.Envelope :=
  inr (LegacyGrading.mkEnvelope
         (LegacyGrading.mkGraded true "voices/1.wav" "Well done")).


Definition legacy_row_alice : Legacy.Problems.t :=
  Legacy.Problems.mk "p1" "alice" "What is this?" "a dinosaur" "img/p1.png" "text"
                     (Some true) (mkDate 2024 5 9 0).

Definition legacy_store_one : Legacy.Store :=
  Legacy.mkStore [alice] [legacy_row_alice].

(** ** Numbers *)

Lemma Qltb_true (x y : Q) : Qltb x y = true <-> (x < y)%Q.
Proof.
  unfold Qltb. rewrite negb_true_iff. split.
  - intros H. apply Qnot_le_lt. intros Hle.
    apply Qle_bool_iff in Hle. congruence.
  - intros H. destruct (Qle_bool y x) eqn:E; [|reflexivity].
    apply Qle_bool_iff in E. exfalso. exact (Qlt_not_le _ _ H E).
Qed.

Lemma Qltb_false (x y : Q) : Qltb x y = false <-> (y <= x)%Q.
Proof.
  unfold Qltb. rewrite negb_false_iff. apply Qle_bool_iff.
Qed.

Lemma js_lt_false_le (a b : number) :
  is_NaN a = false -> is_NaN b = false -> js_lt a b = false -> num_le b a.
Proof.
  destruct a, b; simpl; intros; try discriminate; try exact I.
  now apply Qltb_false.
Qed.

Lemma js_lt_true_le (a b : number) : js_lt a b = true -> num_le a b.
Proof.
  destruct a, b; simpl; intros H; try discriminate; try exact I.
  apply Qlt_le_weak. now apply Qltb_true.
Qed.

Lemma js_lt_true_not_NaN (a b : number) :
  js_lt a b = true -> is_NaN a = false /\ is_NaN b = false.
Proof. destruct a, b; simpl; intros H; try discriminate; auto. Qed.

Lemma num_le_refl (a : number) : is_NaN a = false -> num_le a a.
Proof. destruct a; simpl; intros; try discriminate; auto. apply Qle_refl. Qed.

Lemma num_le_trans (a b c : number) : num_le a b -> num_le b c -> num_le a c.
Proof.
  destruct a, b, c; simpl; intros H1 H2; try contradiction; auto.
  eapply Qle_trans; eauto.
Qed.

Lemma num_le_js_lt (a b : number) : num_le a b -> js_lt b a = false.
Proof.
  destruct a, b; simpl; intros H; try contradiction; auto.
  now apply Qltb_false.
Qed.

Lemma Qmax_of_lt (x y : Q) : (x < y)%Q -> Qmax x y = y.
Proof.
  intros H. unfold Qmax, GenericMinMax.gmax.
  now rewrite (proj1 (Qlt_alt x y) H).
Qed.

Lemma Qmax_of_ge (x y : Q) : (y <= x)%Q -> Qmax x y = x.
Proof.
  intros H. unfold Qmax, GenericMinMax.gmax.
  destruct (x ?= y)%Q eqn:E; auto.
  exfalso. exact (Qlt_not_le _ _ (proj2 (Qlt_alt x y) E) H).
Qed.

Lemma Math_max_gt (l r : number) : js_gt r l = true -> Math_max l r = r.
Proof.
  unfold js_gt. destruct l, r; intros H; try discriminate H; auto.
  cbn [js_lt] in H. apply Qltb_true in H.
  cbn [Math_max]. f_equal. now apply Qmax_of_lt.
Qed.

Lemma Math_max_not_gt (l r : number) :
  is_NaN l = false -> is_NaN r = false -> js_gt r l = false -> Math_max l r = l.
Proof.
  unfold js_gt. destruct l, r; intros Hl Hr H;
    try discriminate Hl; try discriminate Hr; try discriminate H; auto.
  cbn [js_lt] in H. apply Qltb_false in H.
  cbn [Math_max]. f_equal. now apply Qmax_of_ge.
Qed.

Lemma Math_max_ge_l (l r : number) :
  is_NaN l = false -> is_NaN r = false -> num_le l (Math_max l r).
Proof.
  intros Hl Hr. destruct (js_gt r l) eqn:E.
  - rewrite (Math_max_gt _ _ E). now apply js_lt_true_le.
  - rewrite (Math_max_not_gt _ _ Hl Hr E). now apply num_le_refl.
Qed.

(** ** Tables *)

Lemma maxBy_In {A} (gt : A -> A -> bool) (l : list A) (x : A) :
  maxBy gt l = Some x -> In x l.
Proof.
  revert x. induction l as [|a r IH]; intros x H; [discriminate|].
  simpl in H. destruct (maxBy gt r) as [y|].
  - destruct (gt y a); inversion H; subst; [right; now apply IH | now left].
  - inversion H. now left.
Qed.

Lemma maxBy_None {A} (gt : A -> A -> bool) (l : list A) :
  maxBy gt l = None -> l = [].
Proof.
  destruct l as [|a r]; [reflexivity|]. simpl.
  destruct (maxBy gt r) as [y|]; [destruct (gt y a)|]; discriminate.
Qed.

(** The row [orderBy ... desc] puts first has a key no smaller than that of
    any other row, provided the keys are numbers. *)
Lemma maxBy_greatest {A} (key : A -> number) (l : list A) (x : A) :
  (forall y, In y l -> is_NaN (key y) = false) ->
  maxBy (fun a b => js_gt (key a) (key b)) l = Some x ->
  forall y, In y l -> num_le (key y) (key x).
Proof.
  revert x. induction l as [|a r IH]; intros x Hk H y Hy; [contradiction|].
  simpl in H.
  assert (Hr : forall z, In z r -> is_NaN (key z) = false)
    by (intros; apply Hk; now right).
  destruct (maxBy (fun a b => js_gt (key a) (key b)) r) as [y0|] eqn:E.
  - destruct (js_gt (key y0) (key a)) eqn:G; inversion H; subst; clear H.
    + destruct Hy as [<-|Hy]; [now apply js_lt_true_le | now apply (IH x)].
    + assert (num_le (key y0) (key x)).
      { apply js_lt_false_le; auto.
        - apply Hk. now left.
        - apply Hr. eapply maxBy_In; eauto. }
      destruct Hy as [<-|Hy].
      * apply num_le_refl. apply Hk. now left.
      * eapply num_le_trans; [now apply (IH y0)|]. assumption.
  - inversion H; subst. apply maxBy_None in E. subst r.
    destruct Hy as [<-|[]]. apply num_le_refl. apply Hk. now left.
Qed.

Lemma maxBy_map {A} (gt : A -> A -> bool) (f : A -> A) (l : list A) :
  (forall a b, gt (f a) (f b) = gt a b) ->
  maxBy gt (map f l) = option_map f (maxBy gt l).
Proof.
  intros Hf. induction l as [|a r IH]; [reflexivity|].
  simpl. rewrite IH. destruct (maxBy gt r) as [y|]; simpl; [|reflexivity].
  rewrite Hf. now destruct (gt y a).
Qed.

Lemma find_map_same {A} (p : A -> bool) (f : A -> A) (l : list A) :
  (forall a, p (f a) = p a) ->
  find p (map f l) = option_map f (find p l).
Proof.
  intros Hf. induction l as [|a r IH]; [reflexivity|].
  simpl. rewrite Hf. now destruct (p a).
Qed.

Lemma find_append {A} (p : A -> bool) (l1 l2 : list A) :
  find p (l1 ++ l2) = match find p l1 with Some x => Some x | None => find p l2 end.
Proof.
  induction l1 as [|a r IH]; [reflexivity|]. simpl. now destruct (p a).
Qed.

Lemma nextId_fresh (ids : list nat) (i : nat) : In i ids -> (i < nextId ids)%nat.
Proof.
  unfold nextId. induction ids as [|a r IH]; [contradiction|].
  simpl. intros [<-|H]; [lia|]. specialize (IH H). lia.
Qed.

Lemma achievements_find_fresh (s : Store) :
  achievements_find (nextId (map Achievements.id (achievements s))) s = None.
Proof.
  unfold achievements_find.
  destruct (find _ (achievements s)) as [a|] eqn:E; [|reflexivity].
  apply find_some in E. destruct E as [Hin He].
  apply Nat.eqb_eq in He.
  pose proof (nextId_fresh (map Achievements.id (achievements s)) (Achievements.id a)
                (in_map _ _ _ Hin)). lia.
Qed.

Lemma include_In (uid : string) (s : Store) ua a :
  In (ua, a) (userAchievements_include uid s) <->
  In ua (userAchievements s) /\ UserAchievements.userId ua = uid
  /\ achievements_find (UserAchievements.achievementId ua) s = Some a.
Proof.
  unfold userAchievements_include. rewrite in_flat_map. split.
  - intros [ua' [Hin H]].
    destruct (String.eqb_spec (UserAchievements.userId ua') uid) as [Hu|]; [|contradiction].
    destruct (achievements_find _ s) as [a'|] eqn:E; [|contradiction].
    destruct H as [H|[]]. inversion H; subst. auto.
  - intros (Hin & Hu & Hf). exists ua. split; [assumption|].
    rewrite Hu, String.eqb_refl, Hf. now left.
Qed.

(** ** [checkAndCreateAchievement] *)

Lemma checkAndCreateAchievement_returns (uid : string) (r : number) (w : World) :
  fst (checkAndCreateAchievement uid r w) = Ok tt.
Proof.
  unfold checkAndCreateAchievement, bind, query. cbn.
  destruct (userAchievements_findFirst uid (db w)) as [[ua a]|]; cbn.
  - now destruct (js_gt r (Achievements.level a)).
  - reflexivity.
Qed.

(** The call touches the two achievement tables only. *)
Lemma checkAndCreateAchievement_frame (uid : string) (r : number) (w : World) :
  let w' := snd (checkAndCreateAchievement uid r w) in
  users (db w') = users (db w) /\ problems (db w') = problems (db w)
  /\ solveHistories (db w') = solveHistories (db w)
  /\ progresses (db w') = progresses (db w)
  /\ sent w' = sent w /\ pending w' = pending w.
Proof.
  unfold checkAndCreateAchievement, bind, query. cbn.
  destruct (userAchievements_findFirst uid (db w)) as [[ua a]|]; cbn.
  - destruct (js_gt r (Achievements.level a)); cbn; auto 10.
  - auto 10.
Qed.

Lemma updated_id (i : nat) (t d : string) (r : number) (x : Achievements.t) :
  Achievements.id (updated i t d r x) = Achievements.id x.
Proof.
  unfold updated.
  destruct (Nat.eqb_spec (Achievements.id x) i); simpl; congruence.
Qed.

Lemma achievements_find_updated (i : nat) (t d : string) (r : number) (s : Store)
  (j : nat) :
  achievements_find j (set_achievements (map (updated i t d r)) s)
  = option_map (updated i t d r) (achievements_find j s).
Proof.
  unfold achievements_find. cbn. apply find_map_same.
  intros x. now rewrite updated_id.
Qed.

(** After an update the links of any user are those of before, each with
    its achievement row updated. *)
Lemma include_updated (uid : string) (i : nat) (t d : string) (r : number)
  (s : Store) ub b :
  In (ub, b) (userAchievements_include uid (set_achievements (map (updated i t d r)) s))
  <-> exists b0, In (ub, b0) (userAchievements_include uid s)
                 /\ b = updated i t d r b0.
Proof.
  rewrite include_In. split.
  - intros (Hin & Hu & Hf). rewrite achievements_find_updated in Hf.
    destruct (achievements_find (UserAchievements.achievementId ub) s) as [b0|] eqn:E;
      [|discriminate].
    exists b0. inversion Hf. split; [|reflexivity].
    apply include_In. auto.
  - intros (b0 & Hb0 & ->). apply include_In in Hb0.
    destruct Hb0 as (Hin & Hu & Hf). repeat split; auto.
    rewrite achievements_find_updated, Hf. reflexivity.
Qed.

Lemma include_In_achievements (uid : string) (s : Store) ub b :
  In (ub, b) (userAchievements_include uid s) -> In b (achievements s).
Proof.
  intros Hb. apply include_In in Hb. destruct Hb as (_ & _ & Hf).
  unfold achievements_find in Hf. now apply find_some in Hf.
Qed.

Lemma include_levels_ok (uid : string) (s : Store) :
  levels_ok s ->
  forall y, In y (userAchievements_include uid s) ->
            is_NaN (Achievements.level (snd y)) = false.
Proof.
  intros Hok [ub b] Hy. apply Hok. eapply include_In_achievements; eauto.
Qed.

Lemma levels_ok_updated (i : nat) (t d : string) (r : number) (s : Store) :
  levels_ok s -> is_NaN r = false ->
  levels_ok (set_achievements (map (updated i t d r)) s).
Proof.
  intros Hok Hr x Hx. cbn in Hx. apply in_map_iff in Hx.
  destruct Hx as (x0 & <- & Hx0). unfold updated.
  destruct (Nat.eqb (Achievements.id x0) i); cbn; auto.
Qed.

Lemma level_of_after_update (uid : string) (s : Store) ua a (r : number)
  (t d : string) :
  levels_ok s -> is_NaN r = false ->
  userAchievements_findFirst uid s = Some (ua, a) ->
  js_gt r (Achievements.level a) = true ->
  level_of uid (set_achievements (map (updated (Achievements.id a) t d r)) s)
  = Some r.
Proof.
  intros Hok Hr Htop Hgt.
  set (s' := set_achievements _ s).
  pose proof (maxBy_In _ _ _ Htop) as HtopIn.
  pose proof (include_levels_ok uid s Hok) as Hkeys.
  pose proof (include_levels_ok uid s' (levels_ok_updated _ t d r s Hok Hr)) as Hkeys'.
  assert (Htop' : In (ua, updated (Achievements.id a) t d r a)
                     (userAchievements_include uid s')).
  { apply include_updated. exists a. auto. }
  assert (Hupd_a : Achievements.level (updated (Achievements.id a) t d r a) = r).
  { unfold updated. now rewrite Nat.eqb_refl. }
  unfold level_of, userAchievements_findFirst.
  destruct (maxBy higherLevel (userAchievements_include uid s')) as [[ub b]|] eqn:E.
  - cbn. f_equal.
    pose proof (maxBy_In _ _ _ E) as Hb. apply include_updated in Hb.
    destruct Hb as (b0 & Hb0 & ->).
    pose proof (maxBy_greatest (fun x => Achievements.level (snd x)) _ _ Hkeys' E
                  _ Htop') as Hle.
    cbn in Hle. rewrite Hupd_a in Hle.
    unfold updated in *.
    destruct (Nat.eqb (Achievements.id b0) (Achievements.id a)); [reflexivity|].
    exfalso.
    pose proof (maxBy_greatest (fun x => Achievements.level (snd x)) _ _ Hkeys Htop
                  _ Hb0) as Hle0.
    cbn in Hle0.
    pose proof (num_le_js_lt _ _ (num_le_trans _ _ _ Hle Hle0)) as Hno.
    unfold js_gt in Hgt. congruence.
  - apply maxBy_None in E. rewrite E in Htop'. contradiction.
Qed.

Lemma level_of_after_create (uid : string) (s : Store) (r : number) (t d : string) :
  userAchievements_findFirst uid s = None ->
  let n := nextId (map Achievements.id (achievements s)) in
  level_of uid
    (set_userAchievements (fun l => l ++ [UserAchievements.mk uid n])
       (set_achievements (fun l => l ++ [Achievements.mk n t d r]) s))
  = Some r.
Proof.
  intros Hnone n.
  set (row := Achievements.mk n t d r).
  set (s' := set_userAchievements _ _).
  apply maxBy_None in Hnone.
  assert (Hfind : forall i, achievements_find i s' =
                            match achievements_find i s with
                            | Some x => Some x
                            | None => if Nat.eqb n i then Some row else None
                            end).
  { intros i. unfold achievements_find, s'. cbn. rewrite find_append. reflexivity. }
  assert (Hall : forall ub b, In (ub, b) (userAchievements_include uid s') -> b = row).
  { intros ub b Hb. apply include_In in Hb. destruct Hb as (Hin & Hu & Hf).
    rewrite Hfind in Hf.
    destruct (achievements_find (UserAchievements.achievementId ub) s) as [b0|] eqn:E.
    - exfalso. unfold s' in Hin. cbn in Hin. apply in_app_or in Hin.
      destruct Hin as [Hin|[<-|[]]].
      + assert (In (ub, b0) (userAchievements_include uid s))
          by (apply include_In; auto).
        rewrite Hnone in H. contradiction.
      + cbn in E. unfold n in E. rewrite achievements_find_fresh in E. discriminate.
    - destruct (Nat.eqb n (UserAchievements.achievementId ub)); congruence. }
  assert (Hnew : In (UserAchievements.mk uid n, row) (userAchievements_include uid s')).
  { apply include_In. repeat split.
    - unfold s'. cbn. apply in_or_app. right. now left.
    - rewrite Hfind. cbn [UserAchievements.achievementId].
      unfold n. rewrite achievements_find_fresh.
      now rewrite Nat.eqb_refl. }
  unfold level_of, userAchievements_findFirst.
  destruct (maxBy higherLevel (userAchievements_include uid s')) as [[ub b]|] eqn:E.
  - cbn. apply maxBy_In in E. apply Hall in E. now subst b.
  - apply maxBy_None in E. rewrite E in Hnew. contradiction.
Qed.

Lemma checkAndCreateAchievement_step (uid : string) (r : number) (w : World) :
  levels_ok (db w) -> is_NaN r = false ->
  let w' := snd (checkAndCreateAchievement uid r w) in
  level_of uid (db w') =
    Some (match level_of uid (db w) with
          | Some l => Math_max l r
          | None => r
          end)
  /\ levels_ok (db w').
Proof.
  intros Hok Hr. unfold checkAndCreateAchievement, bind, query. cbn.
  unfold level_of at 2.
  destruct (userAchievements_findFirst uid (db w)) as [[ua a]|] eqn:E; cbn.
  - assert (Ha : is_NaN (Achievements.level a) = false).
    { apply Hok. apply maxBy_In in E. apply include_In in E.
      destruct E as (_ & _ & Hf). unfold achievements_find in Hf.
      now apply find_some in Hf. }
    destruct (js_gt r (Achievements.level a)) eqn:G; cbn.
    + split.
      * rewrite (Math_max_gt _ _ G). eapply level_of_after_update; eauto.
      * now apply levels_ok_updated.
    + split; [|assumption].
      rewrite (Math_max_not_gt _ _ Ha Hr G).
      unfold level_of. now rewrite E.
  - split.
    + now apply level_of_after_create.
    + intros x Hx. cbn in Hx. apply in_app_or in Hx.
      destruct Hx as [Hx|[<-|[]]]; auto.
Qed.

(** Two correct attempts out of three give the rate 2/3; the first call
    creates the achievement with that level, and a later call with a lower
    rate leaves it as it is. *)
Example answerRate_two_of_three :
  answerRate [attempt "alice" (Some true); attempt "alice" (Some true);
              attempt "alice" (Some false)]
  = Fin (2 # 3).
Proof. reflexivity. Qed.

Example first_achievement_created :
  achievements (db (snd (checkAndCreateAchievement "alice" (Fin (2 # 3)) world_alice)))
  = [Achievements.mk 1 "정답률 66.67% 달성"
       "정답률 최고기록 달성! 주어진 문제의 66.67% 정답을 맞췄어요." (Fin (2 # 3))].
Proof. reflexivity. Qed.

Example lower_rate_changes_nothing :
  let w1 := snd (checkAndCreateAchievement "alice" (Fin (2 # 3)) world_alice) in
  snd (checkAndCreateAchievement "alice" (Fin (1 # 2)) w1) = w1.
Proof. reflexivity. Qed.

Lemma level_of_is_number (uid : string) (s : Store) (l : number) :
  levels_ok s -> level_of uid s = Some l -> is_NaN l = false.
Proof.
  intros Hok H. unfold level_of in H.
  destruct (userAchievements_findFirst uid s) as [[ua a]|] eqn:E; [|discriminate].
  inversion H; subst. apply Hok.
  apply maxBy_In in E. apply include_In in E. destruct E as (_ & _ & Hf).
  unfold achievements_find in Hf. now apply find_some in Hf.
Qed.

Lemma maxBy_dominated {A} (key : A -> number) (l l' : list A) (x : A) :
  (forall y, In y l' -> is_NaN (key y) = false) ->
  (forall y, In y l -> exists y', In y' l' /\ num_le (key y) (key y')) ->
  maxBy (fun a b => js_gt (key a) (key b)) l = Some x ->
  exists x', maxBy (fun a b => js_gt (key a) (key b)) l' = Some x'
             /\ num_le (key x) (key x').
Proof.
  intros Hk Hdom Hx.
  destruct (Hdom x (maxBy_In _ _ _ Hx)) as (y' & Hy' & Hle).
  destruct (maxBy (fun a b => js_gt (key a) (key b)) l') as [x'|] eqn:E.
  - exists x'. split; [reflexivity|].
    eapply num_le_trans; [exact Hle|].
    now apply (maxBy_greatest key l' x' Hk E).
  - apply maxBy_None in E. subst l'. contradiction.
Qed.

(** The world a call leaves. *)
Lemma checkAndCreateAchievement_world (v : string) (r : number) (w : World) :
  snd (checkAndCreateAchievement v r w) =
    match userAchievements_findFirst v (db w) with
    | Some (_, a) =>
        if js_gt r (Achievements.level a)
        then mkWorld
               (set_achievements
                  (map (updated (Achievements.id a) (achievement_title r)
                                (achievement_description r) r))
                  (db w))
               (sent w) (pending w)
        else w
    | None =>
        let n := nextId (map Achievements.id (achievements (db w))) in
        mkWorld
          (set_userAchievements
             (fun l => l ++ [UserAchievements.mk v n])
             (set_achievements
                (fun l => l ++ [Achievements.mk n (achievement_title r)
                                                (achievement_description r) r])
                (db w)))
          (sent w) (pending w)
    end.
Proof.
  unfold checkAndCreateAchievement, bind, query. cbn.
  destruct (userAchievements_findFirst v (db w)) as [[ua a]|]; cbn.
  - now destruct (js_gt r (Achievements.level a)).
  - reflexivity.
Qed.

(** A call for any user leaves every link of every user in place, with an
    achievement whose level is no lower than before. *)
Lemma include_dominated (u v : string) (r : number) (w : World) :
  levels_ok (db w) -> is_NaN r = false ->
  forall y, In y (userAchievements_include u (db w)) ->
  exists y', In y' (userAchievements_include u
                      (db (snd (checkAndCreateAchievement v r w))))
             /\ num_le (Achievements.level (snd y)) (Achievements.level (snd y')).
Proof.
  intros Hok Hr [ub b] Hy.
  pose proof (include_levels_ok u (db w) Hok _ Hy) as Hb. cbn in Hb.
  rewrite checkAndCreateAchievement_world.
  destruct (userAchievements_findFirst v (db w)) as [[ua a]|] eqn:E.
  - destruct (js_gt r (Achievements.level a)) eqn:G.
    + exists (ub, updated (Achievements.id a) (achievement_title r)
                          (achievement_description r) r b).
      cbn [db snd]. split; [apply include_updated; eauto|].
      unfold updated.
      destruct (Nat.eqb_spec (Achievements.id b) (Achievements.id a)) as [Hid|];
        [|now apply num_le_refl].
      cbn [Achievements.level].
      apply maxBy_In in E. apply include_In in E, Hy.
      destruct E as (_ & _ & Ha). destruct Hy as (_ & _ & Hfb).
      assert (Hia : Achievements.id a = UserAchievements.achievementId ua).
      { unfold achievements_find in Ha. apply find_some in Ha.
        now apply Nat.eqb_eq. }
      assert (Hib : Achievements.id b = UserAchievements.achievementId ub).
      { unfold achievements_find in Hfb. apply find_some in Hfb.
        now apply Nat.eqb_eq. }
      assert (b = a) by congruence. subst b.
      now apply js_lt_true_le.
    + exists (ub, b). split; [assumption|now apply num_le_refl].
  - exists (ub, b). split; [|now apply num_le_refl].
    apply include_In in Hy. destruct Hy as (Hin & Hu & Hf).
    apply include_In. cbn [db]. repeat split.
    + cbn [userAchievements set_userAchievements]. apply in_or_app. now left.
    + assumption.
    + unfold achievements_find in *.
      cbn [achievements set_userAchievements set_achievements].
      rewrite find_append. now rewrite Hf.
Qed.

Lemma level_of_not_lowered (u v : string) (r : number) (w : World) (l : number) :
  levels_ok (db w) -> is_NaN r = false ->
  level_of u (db w) = Some l ->
  exists l', level_of u (db (snd (checkAndCreateAchievement v r w))) = Some l'
             /\ num_le l l'.
Proof.
  intros Hok Hr Hl. unfold level_of, userAchievements_findFirst in *.
  destruct (maxBy higherLevel (userAchievements_include u (db w))) as [x|] eqn:E;
    [|discriminate].
  inversion Hl; subst l.
  destruct (checkAndCreateAchievement_step v r w Hok Hr) as [_ Hok'].
  destruct (maxBy_dominated (fun x => Achievements.level (snd x)) _ _ x
              (include_levels_ok u _ Hok')
              (include_dominated u v r w Hok Hr) E) as (x' & Hx' & Hle).
  exists (Achievements.level (snd x')). split; [|exact Hle].
  unfold higherLevel. now rewrite Hx'.
Qed.

Lemma evaluateAll_levels_ok (calls : list (string * number)) :
  forall w, levels_ok (db w) ->
            Forall (fun c => is_NaN (snd c) = false) calls ->
            levels_ok (db (evaluateAll calls w)).
Proof.
  induction calls as [|c cs IH]; intros w Hok Hall; [assumption|].
  inversion Hall; subst. cbn. apply IH; [|assumption].
  now apply checkAndCreateAchievement_step.
Qed.

(** C2.  After any sequence of calls of [checkAndCreateAchievement] with
    rates that are numbers, one more call for a user makes the level of
    that user's best achievement the maximum of its level before the call
    and the call's rate (the rate itself when the user had none); and the
    call lowers the level of no user. *)
Theorem achievement_level_never_decreases
  (calls : list (string * number)) (uid : string) (r : number) (w : World) :
  levels_ok (db w) ->
  Forall (fun c => is_NaN (snd c) = false) calls ->
  is_NaN r = false ->
  let w1 := evaluateAll calls w in
  let w2 := snd (checkAndCreateAchievement uid r w1) in
  level_of uid (db w2) =
    Some (match level_of uid (db w1) with
          | Some l => Math_max l r
          | None => r
          end)
  /\ (forall u l, level_of u (db w1) = Some l ->
                  exists l', level_of u (db w2) = Some l' /\ num_le l l').
Proof.
  intros Hok Hall Hr w1 w2.
  assert (Hok1 : levels_ok (db w1)) by now apply evaluateAll_levels_ok.
  split.
  - now apply checkAndCreateAchievement_step.
  - intros u l Hl. now apply level_of_not_lowered.
Qed.

Lemma achievement_level_never_decreases_witness :
  level_of "alice"
    (db (snd (checkAndCreateAchievement "alice" (Fin (1 # 2))
                (evaluateAll [("alice", Fin (1 # 3)); ("bob", Fin 1);
                              ("alice", Fin (2 # 3))]
                             world_alice))))
  = Some (Fin (2 # 3)).
Proof.
  assert (H0 : levels_ok (db world_alice)) by (intros a []).
  assert (H1 : Forall (fun c => is_NaN (snd c) = false)
                 [("alice", Fin (1 # 3)); ("bob", Fin 1); ("alice", Fin (2 # 3))])
    by (repeat constructor).
  destruct (achievement_level_never_decreases
              [("alice", Fin (1 # 3)); ("bob", Fin 1); ("alice", Fin (2 # 3))]
              "alice" (Fin (1 # 2)) world_alice H0 H1 eq_refl) as [H _].
  exact H.
Defined.

(** ** [checkProgress] *)

Lemma users_findUnique_id (uid : string) (s : Store) (u : Users.t) :
  users_findUnique uid s = Some u -> Users.id u = uid.
Proof.
  unfold users_findUnique. intros H. apply find_some in H.
  now apply String.eqb_eq.
Qed.

Lemma countCorrect_from (hs : list SolveHistories.t) (acc : Z) :
  fold_left (fun acc cur => if truthy (SolveHistories.isCorrect cur) then acc + 1 else acc)
            hs acc
  = acc + Z.of_nat (List.length
                      (filter (fun h => truthy (SolveHistories.isCorrect h)) hs)).
Proof.
  revert acc. induction hs as [|h r IH]; intros acc; cbn [fold_left filter].
  - cbn. lia.
  - rewrite IH. destruct (truthy (SolveHistories.isCorrect h)); cbn [List.length]; lia.
Qed.

Lemma filter_and {A} (p q : A -> bool) (l : list A) :
  filter q (filter p l) = filter (fun x => p x && q x) l.
Proof.
  induction l as [|a r IH]; [reflexivity|]. cbn [filter].
  destruct (p a); cbn [filter andb]; [destruct (q a)|]; now rewrite IH.
Qed.

(** The two counters the service computes are the sizes of the user's
    correct attempts and of all the user's attempts. *)
Lemma lifetime_counts (uid : string) (s : Store) :
  countCorrect (solveHistories_findMany uid s)
  = Z.of_nat (List.length (correctAttemptsOf uid s))
  /\ Z.of_nat (List.length (solveHistories_findMany uid s))
     = Z.of_nat (List.length (attemptsOf uid s)).
Proof.
  split; [|reflexivity].
  unfold countCorrect. rewrite countCorrect_from.
  unfold solveHistories_findMany, correctAttemptsOf. now rewrite filter_and.
Qed.

Lemma filter_map_same {A} (p : A -> bool) (f : A -> A) (l : list A) :
  (forall a, p (f a) = p a) ->
  filter p (map f l) = map f (filter p l).
Proof.
  intros Hf. induction l as [|a r IH]; [reflexivity|].
  cbn [map filter]. rewrite Hf. destruct (p a); cbn [map]; now rewrite IH.
Qed.

Lemma sameDay_true (a b : Date) :
  sameDay a b = true <->
  getDate a = getDate b /\ getMonth a = getMonth b /\ getFullYear a = getFullYear b.
Proof.
  unfold sameDay. rewrite !andb_true_iff, !Z.eqb_eq. tauto.
Qed.

Lemma dayBefore_not_sameDay (a b : Date) : dayBefore a b -> sameDay a b = false.
Proof.
  intros H. destruct (sameDay a b) eqn:E; [|reflexivity].
  apply sameDay_true in E. unfold dayBefore in H. lia.
Qed.

Lemma progresses_findFirst_none (uid : string) (s : Store) :
  (forall p, In p (progresses s) -> Progresses.userId p <> uid) ->
  progresses_findFirst uid s = None.
Proof.
  intros H. unfold progresses_findFirst.
  destruct (maxBy _ _) as [p|] eqn:E; [|reflexivity].
  apply maxBy_In in E. apply filter_In in E. destruct E as [Hin He].
  apply String.eqb_eq in He. now apply H in Hin.
Qed.

(** C4.  [checkProgress] for a user without any progress row changes
    nothing; when the user's newest progress row was created today, that
    row, and no other, gets [total + 1] and [correct + 1] if the attempt was
    correct, and the table gets no new row. *)
Theorem checkProgress_no_bucket_or_today
  (now : Date) (uid : string) (isCorrect : bool) (w : World) :
  ((forall p, In p (progresses (db w)) -> Progresses.userId p <> uid) ->
   snd (checkProgress now uid isCorrect w) = w)
  /\ (forall user prog,
        users_findUnique uid (db w) = Some user ->
        progresses_findFirst uid (db w) = Some prog ->
        getFullYear (Progresses.createdAt prog) = getFullYear now ->
        getMonth (Progresses.createdAt prog) = getMonth now ->
        getDate (Progresses.createdAt prog) = getDate now ->
        let correct' :=
          if isCorrect then Progresses.correct prog + 1 else Progresses.correct prog in
        let total' := Progresses.total prog + 1 in
        let bump p :=
          if Nat.eqb (Progresses.id p) (Progresses.id prog)
          then Progresses.mk (Progresses.id p) (Progresses.userId p) correct' total'
                             (Progresses.createdAt p)
          else p in
        let w' := snd (checkProgress now uid isCorrect w) in
        (exists row, fst (checkProgress now uid isCorrect w) = Ok row)
        /\ w' = mkWorld (set_progresses (map bump) (db w)) (sent w) (pending w)
        /\ List.length (progresses (db w')) = List.length (progresses (db w))
        /\ progresses_findFirst uid (db w')
           = Some (Progresses.mk (Progresses.id prog) (Progresses.userId prog)
                                 correct' total' (Progresses.createdAt prog))).
Proof.
  split.
  - intros Hnone. unfold checkProgress, bind, query. cbn.
    destruct (users_findUnique uid (db w)) as [user|] eqn:Eu; cbn; [|reflexivity].
    rewrite (users_findUnique_id _ _ _ Eu).
    now rewrite (progresses_findFirst_none _ _ Hnone).
  - intros user prog Eu Ep Hy Hm Hd correct' total' bump w'.
    assert (Hsame : sameDay (Progresses.createdAt prog) now = true)
      by (apply sameDay_true; auto).
    assert (Hw' : w' = mkWorld (set_progresses (map bump) (db w)) (sent w) (pending w)).
    { unfold w', checkProgress, bind, query. cbn. rewrite Eu. cbn.
      rewrite (users_findUnique_id _ _ _ Eu), Ep. cbn. rewrite Hsame.
      reflexivity. }
    split; [|split; [exact Hw'|split]].
    + unfold checkProgress, bind, query. cbn. rewrite Eu. cbn.
      rewrite (users_findUnique_id _ _ _ Eu), Ep. cbn. rewrite Hsame.
      cbn. eexists. reflexivity.
    + rewrite Hw'. cbn. apply length_map.
    + rewrite Hw'. unfold progresses_findFirst in *. cbn [db progresses set_progresses].
      assert (Hu : forall p, Progresses.userId (bump p) = Progresses.userId p).
      { intros p. unfold bump. now destruct (Nat.eqb _ _). }
      assert (Hc : forall p, Progresses.createdAt (bump p) = Progresses.createdAt p).
      { intros p. unfold bump. now destruct (Nat.eqb _ _). }
      rewrite filter_map_same by (intros p; now rewrite Hu).
      rewrite maxBy_map by (intros a b; now rewrite !Hc).
      rewrite Ep. cbn. unfold bump. now rewrite Nat.eqb_refl.
Qed.

Lemma checkProgress_no_bucket_or_today_witness :
  snd (checkProgress sample_now "alice" true world_alice) = world_alice
  /\ progresses_findFirst "alice"
       (db (snd (checkProgress sample_now "alice" true world_today)))
     = Some (Progresses.mk 1 "alice" 4 6 (mkDate 2024 5 10 1000)).
Proof.
  split.
  - apply (proj1 (checkProgress_no_bucket_or_today sample_now "alice" true world_alice)).
    intros p [].
  - apply (proj2 (checkProgress_no_bucket_or_today sample_now "alice" true world_today)
             alice bucket_today eq_refl eq_refl eq_refl eq_refl eq_refl).
Defined.

(** Two attempts on one day, a correct one and then a wrong one, add two to
    [total] and one to [correct] of the one row there is. *)
Example checkProgress_twice_same_day :
  progresses
    (db (snd (checkProgress sample_now "alice" false
                (snd (checkProgress sample_now "alice" true world_today)))))
  = [Progresses.mk 1 "alice" 4 7 (mkDate 2024 5 10 1000)].
Proof. reflexivity. Qed.

(** C3.  When the user's newest progress row was created on a calendar day
    before today, [checkProgress] appends one row, created now, whose
    [correct] and [total] are the numbers of the user's correct attempts
    and of all the user's attempts on record; every row that was there stays
    as it was. *)
Theorem checkProgress_rollover_lifetime
  (now : Date) (uid : string) (isCorrect : bool) (w : World)
  (user : Users.t) (prog : Progresses.t) :
  users_findUnique uid (db w) = Some user ->
  progresses_findFirst uid (db w) = Some prog ->
  dayBefore (Progresses.createdAt prog) now ->
  checkProgress now uid isCorrect w =
    (Ok None,
     mkWorld
       (set_progresses
          (fun t =>
             t ++ [Progresses.mk (nextId (map Progresses.id t)) uid
                     (Z.of_nat (List.length (correctAttemptsOf uid (db w))))
                     (Z.of_nat (List.length (attemptsOf uid (db w))))
                     now])
          (db w))
       (sent w) (pending w)).
Proof.
  intros Eu Ep Hday.
  unfold checkProgress, bind, query. cbn. rewrite Eu. cbn.
  rewrite (users_findUnique_id _ _ _ Eu), Ep. cbn.
  rewrite (dayBefore_not_sameDay _ _ Hday).
  destruct (lifetime_counts uid (db w)) as [Hc Ht].
  unfold progresses_create, write. cbn. rewrite Hc, Ht. reflexivity.
Qed.

Lemma checkProgress_rollover_lifetime_witness :
  progresses (db (snd (checkProgress sample_now "alice" true world_yesterday)))
  = [bucket_yesterday; Progresses.mk 2 "alice" 2 4 sample_now].
Proof.
  rewrite (checkProgress_rollover_lifetime sample_now "alice" true world_yesterday
             alice bucket_yesterday eq_refl eq_refl).
  - reflexivity.
  - right. cbn. lia.
Defined.

(** ** [generateFeedback] *)

(** C5.  When no problem with the given id is owned by the calling user,
    [generateFeedback] fails with the error [Problem not found] and leaves
    the world as it was: no attempt is written or started, and no request
    is sent to the inference service. *)
Theorem generateFeedback_problem_not_owned
  (AI_SERVER_URL : string) (postGenerateFeedback : FeedbackForm -> string + FeedbackData)
  (JSON_stringify : string -> string)
  (problemId : string) (user : Users.t) (voice : MulterFile) (w : World) :
  (forall p, In p (problems (db w)) ->
             ~ (Problems.id p = problemId /\ Problems.userId p = Users.id user)) ->
  generateFeedback AI_SERVER_URL postGenerateFeedback JSON_stringify
                   problemId user voice w
  = (Throw (Error "Problem not found"), w).
Proof.
  intros Hnone. unfold generateFeedback, bind, query. cbn.
  destruct (problems_findUnique problemId (Users.id user) (db w)) as [p|] eqn:E;
    [|reflexivity].
  exfalso. unfold problems_findUnique in E. apply find_some in E.
  destruct E as [Hin He]. apply andb_true_iff in He.
  destruct He as [H1 H2]. apply String.eqb_eq in H1, H2.
  exact (Hnone p Hin (conj H1 H2)).
Qed.

Lemma generateFeedback_problem_not_owned_witness :
  generateFeedback "http://ai" grader_up quote "p1" bob sample_voice world_graded
  = (Throw (Error "Problem not found"), world_graded).
Proof.
  apply generateFeedback_problem_not_owned.
  intros p [<-|[]] [_ H]. discriminate H.
Defined.

(** C6.  When the exchange with the inference service fails,
    [generateFeedback] fails with [InternalServerErrorException] carrying
    the upstream message; the tables are as before, and neither the attempt
    write nor [checkProgress] has been started. *)
Theorem generateFeedback_upstream_failure
  (AI_SERVER_URL : string) (now : Date)
  (postGenerateFeedback : FeedbackForm -> string + FeedbackData)
  (JSON_stringify : string -> string)
  (problemId : string) (user : Users.t) (voice : MulterFile) (w : World)
  (problem : Problems.t) (msg : string) :
  problems_findUnique problemId (Users.id user) (db w) = Some problem ->
  postGenerateFeedback
    (mkForm problemId (JSON_stringify (Problems.answer problem)) voice) = inl msg ->
  let run := generateFeedback AI_SERVER_URL postGenerateFeedback JSON_stringify
                              problemId user voice in
  fst (run w) = Throw (InternalServerErrorException msg)
  /\ db (snd (run w)) = db w
  /\ pending (snd (run w)) = pending w
  /\ (pending w = [] ->
      forall fates, db (snd (serve now run fates w)) = db w).
Proof.
  intros Ep Hfail run.
  assert (Hrun : run w =
                 (Throw (InternalServerErrorException msg),
                  mkWorld (db w)
                    (sent w ++ [mkRequest (AI_SERVER_URL ++ "/chat/generate_feedback")%string
                                  (Multipart (mkForm problemId
                                     (JSON_stringify (Problems.answer problem)) voice))])
                    (pending w))).
  { unfold run, generateFeedback, bind, query, try_catch, post_feedback. cbn.
    rewrite Ep. cbn. rewrite Hfail. reflexivity. }
  repeat split; try (rewrite Hrun; reflexivity).
  intros Hp fates. unfold serve. rewrite Hrun. unfold settle. cbn.
  rewrite Hp. reflexivity.
Qed.

Lemma generateFeedback_upstream_failure_witness :
  fst (generateFeedback "http://ai" grader_down quote "p1" alice sample_voice
         world_graded)
  = Throw (InternalServerErrorException "connect ECONNREFUSED")
  /\ db (snd (serve sample_now
                (generateFeedback "http://ai" grader_down quote "p1" alice sample_voice)
                [Completes; Completes] world_graded))
     = db world_graded.
Proof.
  destruct (generateFeedback_upstream_failure "http://ai" sample_now grader_down quote
              "p1" alice sample_voice world_graded problem_alice
              "connect ECONNREFUSED" eq_refl eq_refl) as (H1 & _ & _ & H4).
  split; [exact H1 | exact (H4 eq_refl [Completes; Completes])].
Defined.

(** C10.  When the inference service answers, [generateFeedback] starts
    the attempt write and [checkProgress] without awaiting either and
    returns the grading payload at once, the tables still untouched; the
    client receives that payload whatever becomes of the two calls. *)
Theorem generateFeedback_fire_and_forget
  (AI_SERVER_URL : string) (now : Date)
  (postGenerateFeedback : FeedbackForm -> string + FeedbackData)
  (JSON_stringify : string -> string)
  (problemId : string) (user : Users.t) (voice : MulterFile) (w : World)
  (problem : Problems.t) (data : FeedbackData) :
  problems_findUnique problemId (Users.id user) (db w) = Some problem ->
  postGenerateFeedback
    (mkForm problemId (JSON_stringify (Problems.answer problem)) voice) = inr data ->
  let run := generateFeedback AI_SERVER_URL postGenerateFeedback JSON_stringify
                              problemId user voice in
  fst (run w) = Ok data
  /\ db (snd (run w)) = db w
  /\ pending (snd (run w)) =
       pending w ++
       [SolveHistoriesCreate
          (SolveHistories.mk (Users.id user) problemId (Some (is_correct data))
                             (fd_feedback data) (voice_path data));
        CheckProgress (Users.id user) (is_correct data)]
  /\ (forall fates, fst (serve now run fates w) = Ok data).
Proof.
  intros Ep Hok run.
  assert (Hrun : run w =
                 (Ok data,
                  mkWorld (db w)
                    (sent w ++ [mkRequest (AI_SERVER_URL ++ "/chat/generate_feedback")%string
                                  (Multipart (mkForm problemId
                                     (JSON_stringify (Problems.answer problem)) voice))])
                    ((pending w ++
                      [SolveHistoriesCreate
                         (SolveHistories.mk (Users.id user) problemId
                            (Some (is_correct data)) (fd_feedback data)
                            (voice_path data))]) ++
                     [CheckProgress (Users.id user) (is_correct data)]))).
  { unfold run, generateFeedback, bind, query, try_catch, post_feedback, spawn. cbn.
    rewrite Ep. cbn. rewrite Hok. reflexivity. }
  repeat split; try (rewrite Hrun; reflexivity).
  - rewrite Hrun. cbn. now rewrite <- app_assoc.
  - intros fates. unfold serve. now rewrite Hrun.
Qed.

Lemma generateFeedback_fire_and_forget_witness :
  fst (serve sample_now
         (generateFeedback "http://ai" grader_up quote "p1" alice sample_voice)
         [Fails; Fails] world_graded)
  = Ok (mkFeedbackData true "Well done" "voices/1.wav")
  /\ fst (serve sample_now
            (generateFeedback "http://ai" grader_up quote "p1" alice sample_voice)
            [Completes; Completes] world_graded)
     = Ok (mkFeedbackData true "Well done" "voices/1.wav").
Proof.
  destruct (generateFeedback_fire_and_forget "http://ai" sample_now grader_up quote
              "p1" alice sample_voice world_graded problem_alice
              (mkFeedbackData true "Well done" "voices/1.wav") eq_refl eq_refl)
    as (_ & _ & _ & H).
  split; apply H.
Defined.

(** The two started calls do run, or not, after the reply: the reply is the
    same, the tables are not. *)
Example generateFeedback_reply_and_fates :
  solveHistories
    (db (snd (serve sample_now
                (generateFeedback "http://ai" grader_up quote "p1" alice sample_voice)
                [Fails; Fails] world_graded)))
  = sample_attempts
  /\ solveHistories
       (db (snd (serve sample_now
                   (generateFeedback "http://ai" grader_up quote "p1" alice sample_voice)
                   [Completes; Fails] world_graded)))
     = sample_attempts
       ++ [SolveHistories.mk "alice" "p1" (Some true) "Well done" "voices/1.wav"].
Proof. split; reflexivity. Qed.

(** ** [generateProblem] *)

Lemma answerRate_is_number (hs : list SolveHistories.t) :
  is_NaN (answerRate hs) = false.
Proof.
  unfold answerRate, js_div.
  destruct (Z.of_nat (List.length hs) =? 0); reflexivity.
Qed.

Lemma answerRate_no_attempts : answerRate [] = Fin 0.
Proof. reflexivity. Qed.

Lemma generateProblem_unknown_user
  (AI_SERVER_URL : string) (now : Date)
  (postGenerateProblem : UserInfo -> string + ProblemData)
  (userId : string) (w : World) :
  users_findUnique userId (db w) = None ->
  generateProblem AI_SERVER_URL now postGenerateProblem userId w
  = (Throw (TypeError "Cannot read properties of null (reading 'birth')"), w).
Proof.
  intros H. unfold generateProblem, bind, query. cbn. now rewrite H.
Qed.

(** The steps of [generateProblem] for a user on record. *)
Lemma generateProblem_steps
  (AI_SERVER_URL : string) (now : Date)
  (postGenerateProblem : UserInfo -> string + ProblemData)
  (userId : string) (w : World) (user : Users.t) :
  users_findUnique userId (db w) = Some user ->
  let rate := answerRate (solveHistories_findMany userId (db w)) in
  let w1 := snd (checkAndCreateAchievement userId rate w) in
  let data :=
    mkUserInfo
      (Z.abs ((getFullYear now - getFullYear (Users.birth user)) * 12
              + (getMonth now - getMonth (Users.birth user))))
      rate (Users.interest user) "초급" None (ParentFeedbacksQuery userId) in
  let w2 :=
    mkWorld (db w1)
            (sent w1 ++ [mkRequest (AI_SERVER_URL ++ "/chat/generate_problem")%string
                                   (Json data)])
            (pending w1) in
  generateProblem AI_SERVER_URL now postGenerateProblem userId w =
    match postGenerateProblem data with
    | inl msg => (Throw (AxiosError msg), w2)
    | inr d =>
        if existsb (fun p => Problems.id p =? pd_id d)%string (problems (db w2))
        then (Throw (PrismaClientKnownRequestError "P2002"), w2)
        else
          (Ok [("problemId", pd_id d); ("question", pd_question d);
               ("image", pd_image d)],
           mkWorld
             (set_problems
                (fun t => t ++ [Problems.mk (pd_id d) userId (pd_question d)
                                            (pd_answer d) (pd_image_path d)
                                            (pd_whole_text d)])
                (db w2))
             (sent w2) (pending w2))
    end.
Proof.
  intros Eu rate w1 data w2.
  pose proof (users_findUnique_id _ _ _ Eu) as Hid.
  pose proof (checkAndCreateAchievement_returns userId rate w) as Hr.
  unfold generateProblem, bind, query. cbn. rewrite Eu. cbn. rewrite Hid.
  fold rate. unfold w2, w1, data.
  destruct (checkAndCreateAchievement userId rate w) as [r w'].
  cbn in Hr. subst r. cbn. unfold post_problem. cbn.
  destruct (postGenerateProblem _) as [msg|d]; cbn; [reflexivity|].
  unfold problems_create. cbn. now destruct (existsb _ _).
Qed.

(** What the current revision sends for a user without attempts. *)
Lemma generateProblem_accuracy_no_attempts
  (AI_SERVER_URL : string) (now : Date)
  (postGenerateProblem : UserInfo -> string + ProblemData)
  (userId : string) (w : World) (user : Users.t) :
  users_findUnique userId (db w) = Some user ->
  attemptsOf userId (db w) = [] ->
  accuracies (sent (snd (generateProblem AI_SERVER_URL now postGenerateProblem userId w)))
  = accuracies (sent w) ++ [Fin 0].
Proof.
  intros Eu Hnone.
  rewrite (generateProblem_steps _ _ _ _ _ _ Eu). cbn zeta.
  unfold solveHistories_findMany. fold (attemptsOf userId (db w)). rewrite Hnone.
  rewrite answerRate_no_attempts.
  destruct (checkAndCreateAchievement_frame userId (Fin 0) w)
    as (_ & _ & _ & _ & Hsent & _).
  destruct (postGenerateProblem _) as [msg|d]; [|destruct (existsb _ _)];
    cbn [snd sent]; unfold accuracies; rewrite Hsent, flat_map_app; reflexivity.
Qed.

(** What the current revision hands back when it succeeds. *)
Lemma generateProblem_result
  (AI_SERVER_URL : string) (now : Date)
  (postGenerateProblem : UserInfo -> string + ProblemData)
  (userId : string) (w : World) (o : JsObject) :
  fst (generateProblem AI_SERVER_URL now postGenerateProblem userId w) = Ok o ->
  exists info d,
    postGenerateProblem info = inr d
    /\ o = [("problemId", pd_id d); ("question", pd_question d); ("image", pd_image d)]
    /\ member "answer" o = None.
Proof.
  destruct (users_findUnique userId (db w)) as [user|] eqn:Eu.
  - rewrite (generateProblem_steps _ _ _ _ _ _ Eu). cbn zeta.
    destruct (postGenerateProblem _) as [msg|d] eqn:Ep; [discriminate|].
    destruct (existsb _ _); [discriminate|].
    intros H. inversion H; subst. eexists _, d. repeat split. exact Ep.
  - rewrite (generateProblem_unknown_user _ _ _ _ _ Eu). discriminate.
Qed.

(** C9.  [generateProblem] runs [checkAndCreateAchievement] before it
    talks to the inference service, so when that exchange fails the call
    fails while the tables are those [checkAndCreateAchievement] left: the
    user's best level is then the maximum of the earlier level and the
    rate, and a user without an achievement has got one, so that the tables
    differ from those before the call. *)
Theorem generateProblem_upstream_failure_keeps_achievement
  (AI_SERVER_URL : string) (now : Date)
  (postGenerateProblem : UserInfo -> string + ProblemData)
  (userId : string) (w : World) (user : Users.t) (msg : string) :
  users_findUnique userId (db w) = Some user ->
  let rate := answerRate (solveHistories_findMany userId (db w)) in
  postGenerateProblem
    (mkUserInfo
       (Z.abs ((getFullYear now - getFullYear (Users.birth user)) * 12
               + (getMonth now - getMonth (Users.birth user))))
       rate (Users.interest user) "초급" None (ParentFeedbacksQuery userId))
    = inl msg ->
  let run := generateProblem AI_SERVER_URL now postGenerateProblem userId w in
  fst run = Throw (AxiosError msg)
  /\ db (snd run) = db (snd (checkAndCreateAchievement userId rate w))
  /\ (levels_ok (db w) ->
      level_of userId (db (snd run))
      = Some (match level_of userId (db w) with
              | Some l => Math_max l rate
              | None => rate
              end))
  /\ (level_of userId (db w) = None ->
      level_of userId (db (snd run)) = Some rate /\ db (snd run) <> db w).
Proof.
  intros Eu rate Hfail run.
  assert (Hrun : run = (Throw (AxiosError msg),
                        mkWorld (db (snd (checkAndCreateAchievement userId rate w)))
                          (sent (snd (checkAndCreateAchievement userId rate w)) ++
                           [mkRequest (AI_SERVER_URL ++ "/chat/generate_problem")%string
                              (Json (mkUserInfo
                                 (Z.abs ((getFullYear now - getFullYear (Users.birth user)) * 12
                                         + (getMonth now - getMonth (Users.birth user))))
                                 rate (Users.interest user) "초급" None
                                 (ParentFeedbacksQuery userId)))])
                          (pending (snd (checkAndCreateAchievement userId rate w))))).
  { unfold run. rewrite (generateProblem_steps _ _ _ _ _ _ Eu). cbn zeta.
    fold rate. now rewrite Hfail. }
  rewrite Hrun. cbn [fst snd db].
  split; [reflexivity|split; [reflexivity|split]].
  - intros Hok.
    apply (checkAndCreateAchievement_step userId rate w Hok).
    apply answerRate_is_number.
  - intros Hnone. unfold level_of in Hnone.
    destruct (userAchievements_findFirst userId (db w)) as [x|] eqn:E;
      [discriminate|].
    unfold checkAndCreateAchievement, bind, query. cbn. rewrite E. cbn. split.
    + now apply level_of_after_create.
    + intros Heq. apply (f_equal (fun s => List.length (achievements s))) in Heq.
      cbn in Heq. rewrite length_app in Heq. cbn in Heq. lia.
Qed.

Lemma generateProblem_upstream_failure_keeps_achievement_witness :
  fst (generateProblem "http://ai" sample_now generator_down "alice" world_alice)
  = Throw (AxiosError "Request failed with status code 500")
  /\ level_of "alice" (db world_alice) = None
  /\ level_of "alice"
       (db (snd (generateProblem "http://ai" sample_now generator_down "alice"
                   world_alice)))
     = Some (Fin 0).
Proof.
  destruct (generateProblem_upstream_failure_keeps_achievement
              "http://ai" sample_now generator_down "alice" world_alice alice
              "Request failed with status code 500" eq_refl eq_refl)
    as (H1 & _ & _ & H4).
  split; [exact H1|]. split; [reflexivity|]. exact (proj1 (H4 eq_refl)).
Defined.

(** C7.  [generateProblem] for an id without a user row: the call fails
    before anything is computed or sent, and the error it fails with is the
    [TypeError] of reading [birth] from [null]. *)
Theorem generateProblem_unknown_user_TypeError
  (AI_SERVER_URL : string) (now : Date)
  (postGenerateProblem : UserInfo -> string + ProblemData) :
  generateProblem AI_SERVER_URL now postGenerateProblem "carol" world_alice
  = (Throw (TypeError "Cannot read properties of null (reading 'birth')"),
     world_alice).
Proof. now apply generateProblem_unknown_user. Qed.

(** C1.  The rate for an empty history: the current revision tests
    [total === 0] and yields 0; the earlier revision divides 0 by 0 and sends
    [NaN] as the accuracy of the profile. *)
Theorem legacy_generateProblem_empty_history_NaN
  (AI_SERVER_URL : string) (now : Date)
  (postGenerateProblem : UserInfo -> string + ProblemData) :
  answerRate [] = Fin 0
  /\ Legacy.answerRate [] = NaN
  /\ accuracies
       (Legacy.sent
          (snd (Legacy.generateProblem AI_SERVER_URL now postGenerateProblem
                  "alice" legacy_world_alice)))
     = [NaN].
Proof.
  repeat split. unfold Legacy.generateProblem. cbn.
  now destruct (postGenerateProblem _).
Qed.

(** C8.  The value handed back on success: the current revision returns
    [problemId], [question] and [image]; the earlier revision returns
    [question] and [image] only.  Neither has the answer. *)
Theorem legacy_generateProblem_returns_no_problemId
  (AI_SERVER_URL : string) (now : Date) :
  fst (generateProblem AI_SERVER_URL now generator_up "alice" world_alice)
  = Ok [("problemId", "p2"); ("question", "What colour is it?"); ("image", "<png>")]
  /\ fst (Legacy.generateProblem AI_SERVER_URL now generator_up "alice"
            legacy_world_alice)
     = Ok [("question", "What colour is it?"); ("image", "<png>")].
Proof. split; reflexivity. Qed.

(** * Further properties of the service *)

(** ** The rate and the profile *)

Lemma countCorrect_bounds (hs : list SolveHistories.t) :
  0 <= countCorrect hs <= Z.of_nat (List.length hs).
Proof.
  unfold countCorrect. rewrite countCorrect_from.
  pose proof (filter_length_le (fun h => truthy (SolveHistories.isCorrect h)) hs).
  lia.
Qed.

Lemma js_div_unit (c t : Z) : 0 <= c <= t -> 0 < t -> unit_rate (js_div c t).
Proof.
  intros Hc Ht. unfold js_div.
  destruct (Z.eqb_spec t 0) as [->|_]; [lia|].
  cbn [unit_rate]. rewrite !Qred_correct.
  assert (Hpos : (0 < inject_Z t)%Q).
  { change (inject_Z 0 < inject_Z t)%Q. rewrite <- Zlt_Qlt. exact Ht. }
  split.
  - apply Qle_shift_div_l; [exact Hpos|].
    rewrite Qmult_0_l. change (inject_Z 0 <= inject_Z c)%Q.
    rewrite <- Zle_Qle. lia.
  - apply Qle_shift_div_r; [exact Hpos|].
    rewrite Qmult_1_l. rewrite <- Zle_Qle. lia.
Qed.

Lemma answerRate_in_unit (hs : list SolveHistories.t) : unit_rate (answerRate hs).
Proof.
  unfold answerRate.
  destruct (Z.eqb_spec (Z.of_nat (List.length hs)) 0) as [_|Hne].
  - cbn. split; discriminate.
  - apply js_div_unit; [apply countCorrect_bounds|lia].
Qed.

(** X1.  Whatever the attempts, and whichever user each belongs to, the
    rate [generateProblem] computes from them is a number between 0 and 1:
    never [NaN], never infinite, never negative. *)
Theorem answerRate_unit (uid : string) (s : Store) :
  unit_rate (answerRate (solveHistories_findMany uid s)).
Proof.
  set (hs := solveHistories_findMany uid s).
  pose proof (countCorrect_bounds hs) as Hc.
  unfold answerRate.
  destruct (Z.eqb_spec (Z.of_nat (List.length hs)) 0) as [_|Hne].
  - cbn. split; discriminate.
  - apply js_div_unit; [exact Hc|lia].
Qed.

(** X2.  For a user on record, [generateProblem] sends exactly one request,
    to [/chat/generate_problem], whose profile has a non-negative age in
    months, the user's interests, and as accuracy the rate of the user's
    attempts, a number between 0 and 1 -- whether or not the call then
    succeeds. *)
Theorem generateProblem_sends_one_profile
  (AI_SERVER_URL : string) (now : Date)
  (postGenerateProblem : UserInfo -> string + ProblemData)
  (userId : string) (w : World) (user : Users.t) :
  users_findUnique userId (db w) = Some user ->
  exists info,
    sent (snd (generateProblem AI_SERVER_URL now postGenerateProblem userId w))
    = sent w ++ [mkRequest (AI_SERVER_URL ++ "/chat/generate_problem")%string
                           (Json info)]
    /\ 0 <= age info
    /\ accuracy info = answerRate (attemptsOf userId (db w))
    /\ unit_rate (accuracy info)
    /\ interests info = Users.interest user.
Proof.
  intros Eu. rewrite (generateProblem_steps _ _ _ _ _ _ Eu). cbn zeta.
  destruct (checkAndCreateAchievement_frame userId
              (answerRate (solveHistories_findMany userId (db w))) w)
    as (_ & _ & _ & _ & Hsent & _).
  eexists. split.
  - destruct (postGenerateProblem _) as [msg|d]; [|destruct (existsb _ _)];
      cbn [snd sent]; rewrite Hsent; reflexivity.
  - cbn [age accuracy interests]. repeat split.
    + apply Z.abs_nonneg.
    + apply answerRate_in_unit.
Qed.

Lemma generateProblem_sends_one_profile_witness :
  exists info,
    sent (snd (generateProblem "http://ai" sample_now generator_down "alice"
                 world_alice))
    = [mkRequest "http://ai/chat/generate_problem" (Json info)]
    /\ 0 <= age info
    /\ accuracy info = answerRate (attemptsOf "alice" (db world_alice))
    /\ unit_rate (accuracy info)
    /\ interests info = "dinosaurs".
Proof.
  exact (generateProblem_sends_one_profile "http://ai" sample_now generator_down
           "alice" world_alice alice eq_refl).
Defined.

(** ** What [generateFeedback] does in each case *)

Lemma generateFeedback_cases
  (AI_SERVER_URL : string) (postGenerateFeedback : FeedbackForm -> string + FeedbackData)
  (JSON_stringify : string -> string)
  (problemId : string) (user : Users.t) (voice : MulterFile) (w : World) :
  generateFeedback AI_SERVER_URL postGenerateFeedback JSON_stringify
                   problemId user voice w
  = match problems_findUnique problemId (Users.id user) (db w) with
    | None => (Throw (Error "Problem not found"), w)
    | Some problem =>
        let form := mkForm problemId (JSON_stringify (Problems.answer problem)) voice in
        let sent' :=
          sent w ++ [mkRequest (AI_SERVER_URL ++ "/chat/generate_feedback")%string
                               (Multipart form)] in
        match postGenerateFeedback form with
        | inl msg => (Throw (InternalServerErrorException msg),
                      mkWorld (db w) sent' (pending w))
        | inr d =>
            (Ok d,
             mkWorld (db w) sent'
               (pending w ++
                [SolveHistoriesCreate
                   (SolveHistories.mk (Users.id user) problemId (Some (is_correct d))
                                      (fd_feedback d) (voice_path d));
                 CheckProgress (Users.id user) (is_correct d)]))
        end
    end.
Proof.
  unfold generateFeedback, bind, query, try_catch, post_feedback, spawn. cbn.
  destruct (problems_findUnique problemId (Users.id user) (db w)) as [p|]; cbn;
    [|reflexivity].
  destruct (postGenerateFeedback _) as [msg|d]; cbn; [reflexivity|].
  now rewrite <- app_assoc.
Qed.

Lemma problems_findUnique_owned (pid uid : string) (s : Store) (p : Problems.t) :
  problems_findUnique pid uid s = Some p ->
  In p (problems s) /\ Problems.id p = pid /\ Problems.userId p = uid.
Proof.
  unfold problems_findUnique. intros H. apply find_some in H.
  destruct H as [Hin He]. apply andb_true_iff in He. destruct He as [H1 H2].
  apply String.eqb_eq in H1, H2. auto.
Qed.



(** X4.  [generateFeedback] sends at most one request, and only for a
    problem of the given id that the calling user owns; the answer in the
    form is the serialized answer stored with that problem. *)
Theorem generateFeedback_sends_only_owned
  (AI_SERVER_URL : string) (postGenerateFeedback : FeedbackForm -> string + FeedbackData)
  (JSON_stringify : string -> string)
  (problemId : string) (user : Users.t) (voice : MulterFile) (w : World) :
  let r := generateFeedback AI_SERVER_URL postGenerateFeedback JSON_stringify
                            problemId user voice w in
  sent (snd r) = sent w
  \/ exists p,
       In p (problems (db w))
       /\ Problems.id p = problemId
       /\ Problems.userId p = Users.id user
       /\ sent (snd r)
          = sent w ++ [mkRequest (AI_SERVER_URL ++ "/chat/generate_feedback")%string
                         (Multipart (mkForm problemId
                                            (JSON_stringify (Problems.answer p))
                                            voice))].
Proof.
  intros r. unfold r. rewrite generateFeedback_cases.
  destruct (problems_findUnique problemId (Users.id user) (db w)) as [p|] eqn:E.
  - right. exists p. destruct (problems_findUnique_owned _ _ _ _ E) as (H1 & H2 & H3).
    repeat split; auto. cbn zeta. now destruct (postGenerateFeedback _).
  - now left.
Qed.

(** ** From [generateProblem] to [generateFeedback] *)

Lemma existsb_false_find {A} (p q : A -> bool) (l : list A) :
  existsb p l = false -> (forall x, q x = true -> p x = true) -> find q l = None.
Proof.
  intros He Hq. destruct (find q l) as [x|] eqn:E; [|reflexivity].
  apply find_some in E. destruct E as [Hin Hx].
  assert (existsb p l = true) by (apply existsb_exists; exists x; auto).
  congruence.
Qed.

(** X5.  When [generateProblem] succeeds, the problem is on record under
    the id it returns, owned by the user and holding the answer the
    inference service gave; a later [generateFeedback] for that id finds it
    for the owner, and fails with [Problem not found], changing nothing, for
    every other user. *)
Theorem generated_problem_belongs_to_its_user
  (AI_SERVER_URL : string) (now : Date)
  (postGenerateProblem : UserInfo -> string + ProblemData)
  (userId : string) (w : World) (o : JsObject) :
  let run := generateProblem AI_SERVER_URL now postGenerateProblem userId w in
  fst run = Ok o ->
  exists info d,
    postGenerateProblem info = inr d
    /\ member "problemId" o = Some (pd_id d)
    /\ problems_findUnique (pd_id d) userId (db (snd run))
       = Some (Problems.mk (pd_id d) userId (pd_question d) (pd_answer d)
                           (pd_image_path d) (pd_whole_text d))
    /\ (forall url grader js other voice,
          Users.id other <> userId ->
          generateFeedback url grader js (pd_id d) other voice (snd run)
          = (Throw (Error "Problem not found"), snd run)).
Proof.
  intros run. unfold run.
  destruct (users_findUnique userId (db w)) as [user|] eqn:Eu.
  2:{ rewrite (generateProblem_unknown_user _ _ _ _ _ Eu). discriminate. }
  rewrite (generateProblem_steps _ _ _ _ _ _ Eu). cbn zeta.
  destruct (postGenerateProblem _) as [msg|d] eqn:Ep; [discriminate|].
  destruct (existsb _ _) eqn:Ex; [discriminate|].
  intros H. inversion H; subst o. clear H.
  eexists _, d. split; [exact Ep|]. split; [reflexivity|].
  cbn [snd db] in *.
  assert (Hold : forall uid,
             find (fun p => (Problems.id p =? pd_id d)%string
                            && (Problems.userId p =? uid)%string)
                  (problems (db (snd (checkAndCreateAchievement userId
                      (answerRate (solveHistories_findMany userId (db w))) w))))
             = None).
  { intros uid. eapply existsb_false_find; [exact Ex|].
    intros x Hx. now apply andb_true_iff in Hx. }
  split.
  - unfold problems_findUnique. cbn [problems set_problems].
    rewrite find_append, Hold. cbn. now rewrite !String.eqb_refl.
  - intros url grader js other voice Hother.
    rewrite generateFeedback_cases.
    unfold problems_findUnique. cbn [db problems set_problems].
    rewrite find_append, Hold. cbn. rewrite String.eqb_refl. cbn.
    destruct (String.eqb_spec userId (Users.id other)); [congruence|reflexivity].
Qed.

Lemma generated_problem_belongs_to_its_user_witness :
  generateFeedback "http://ai" grader_up quote "p2" bob sample_voice
    (snd (generateProblem "http://ai" sample_now generator_up "alice" world_alice))
  = (Throw (Error "Problem not found"),
     snd (generateProblem "http://ai" sample_now generator_up "alice" world_alice)).
Proof.
  destruct (generated_problem_belongs_to_its_user
              "http://ai" sample_now generator_up "alice" world_alice
              [("problemId", "p2"); ("question", "What colour is it?");
               ("image", "<png>")] eq_refl)
    as (info & d & Hd & _ & _ & Hother).
  inversion Hd; subst d.
  apply (Hother "http://ai" grader_up quote bob sample_voice).
  discriminate.
Defined.

(** ** More on [checkProgress] *)

(** The world [checkProgress] leaves. *)
Lemma checkProgress_world (now : Date) (uid : string) (isCorrect : bool) (w : World) :
  snd (checkProgress now uid isCorrect w) =
    match users_findUnique uid (db w), progresses_findFirst uid (db w) with
    | Some _, Some prog =>
        if sameDay (Progresses.createdAt prog) now then
          mkWorld
            (set_progresses
               (map (bumped (Progresses.id prog)
                       (if isCorrect then Progresses.correct prog + 1
                        else Progresses.correct prog)
                       (Progresses.total prog + 1)))
               (db w))
            (sent w) (pending w)
        else
          mkWorld
            (set_progresses
               (fun t => t ++ [Progresses.mk (nextId (map Progresses.id t)) uid
                                 (countCorrect (solveHistories_findMany uid (db w)))
                                 (Z.of_nat (List.length (solveHistories_findMany uid (db w))))
                                 now])
               (db w))
            (sent w) (pending w)
    | _, _ => w
    end.
Proof.
  unfold checkProgress, bind, query. cbn.
  destruct (users_findUnique uid (db w)) as [user|] eqn:Eu; cbn; [|reflexivity].
  rewrite (users_findUnique_id _ _ _ Eu).
  destruct (progresses_findFirst uid (db w)) as [prog|]; cbn; [|reflexivity].
  now destruct (sameDay (Progresses.createdAt prog) now).
Qed.

(** X6.  [checkProgress] writes to the progress table only: users,
    problems, attempts and achievements are as before, nothing is sent and
    nothing started; and it adds at most one progress row, removing none. *)
Theorem checkProgress_touches_progress_only
  (now : Date) (uid : string) (isCorrect : bool) (w : World) :
  let w' := snd (checkProgress now uid isCorrect w) in
  users (db w') = users (db w)
  /\ problems (db w') = problems (db w)
  /\ solveHistories (db w') = solveHistories (db w)
  /\ achievements (db w') = achievements (db w)
  /\ userAchievements (db w') = userAchievements (db w)
  /\ sent w' = sent w
  /\ pending w' = pending w
  /\ (List.length (progresses (db w)) <= List.length (progresses (db w'))
      <= S (List.length (progresses (db w))))%nat.
Proof.
  cbn zeta. rewrite checkProgress_world.
  destruct (users_findUnique uid (db w)) as [user|]; [|repeat split; lia].
  destruct (progresses_findFirst uid (db w)) as [prog|]; [|repeat split; lia].
  destruct (sameDay (Progresses.createdAt prog) now); cbn.
  - rewrite length_map. repeat split; lia.
  - rewrite length_app. cbn. repeat split; lia.
Qed.

Lemma progresses_findFirst_In (uid : string) (s : Store) (p : Progresses.t) :
  progresses_findFirst uid s = Some p ->
  In p (progresses s) /\ Progresses.userId p = uid.
Proof.
  unfold progresses_findFirst. intros H. apply maxBy_In in H.
  apply filter_In in H. destruct H as [Hin He]. now apply String.eqb_eq in He.
Qed.

(** X7.  [checkProgress] keeps the progress table sound: if in every row
    [0 <= correct <= total], the same holds after the call, whichever branch
    it takes. *)
Theorem checkProgress_keeps_correct_le_total
  (now : Date) (uid : string) (isCorrect : bool) (w : World) :
  progress_ok (db w) ->
  progress_ok (db (snd (checkProgress now uid isCorrect w))).
Proof.
  intros Hok. rewrite checkProgress_world.
  destruct (users_findUnique uid (db w)) as [user|]; [|assumption].
  destruct (progresses_findFirst uid (db w)) as [prog|] eqn:Ep; [|assumption].
  destruct (progresses_findFirst_In _ _ _ Ep) as [Hin _].
  pose proof (Hok _ Hin) as Hprog.
  destruct (sameDay (Progresses.createdAt prog) now); intros p Hp; cbn in Hp.
  - apply in_map_iff in Hp. destruct Hp as (p0 & <- & Hp0).
    unfold bumped. destruct (Nat.eqb (Progresses.id p0) (Progresses.id prog)).
    + cbn. destruct isCorrect; lia.
    + now apply Hok.
  - apply in_app_or in Hp. destruct Hp as [Hp|[<-|[]]]; [now apply Hok|].
    cbn. apply countCorrect_bounds.
Qed.

Lemma checkProgress_keeps_correct_le_total_witness :
  progress_ok (db (snd (checkProgress sample_now "alice" true world_today))).
Proof.
  apply checkProgress_keeps_correct_le_total.
  intros p [<-|[]]. cbn. lia.
Defined.

Lemma maxBy_no_greater {A} (gt : A -> A -> bool) (l : list A) (x : A) :
  (forall a b, gt a b = true -> gt b a = false) ->
  (forall a b c, gt a b = false -> gt b c = false -> gt a c = false) ->
  maxBy gt l = Some x ->
  forall y, In y l -> gt y x = false.
Proof.
  intros Hasym Hneg. revert x.
  induction l as [|a r IH]; intros x H y Hy; [contradiction|].
  assert (Hirr : forall z, gt z z = false).
  { intros z. destruct (gt z z) eqn:E; [|reflexivity].
    now rewrite (Hasym _ _ E) in E. }
  simpl in H. destruct (maxBy gt r) as [y0|] eqn:E.
  - destruct (gt y0 a) eqn:G; inversion H; subst; clear H.
    + destruct Hy as [<-|Hy]; [now apply Hasym | now apply IH].
    + destruct Hy as [<-|Hy]; [apply Hirr|].
      eapply Hneg; [|exact G]. now apply IH.
  - inversion H; subst. apply maxBy_None in E. subst r.
    destruct Hy as [<-|[]]. apply Hirr.
Qed.

Lemma maxBy_last {A} (gt : A -> A -> bool) (l : list A) (x : A) :
  (forall y, In y l -> gt x y = true) -> maxBy gt (l ++ [x]) = Some x.
Proof.
  induction l as [|a r IH]; intros H; [reflexivity|].
  cbn [app maxBy]. rewrite IH by (intros; apply H; now right).
  now rewrite (H a (or_introl eq_refl)).
Qed.

Lemma Date_ltb_true (a b : Date) :
  Date_ltb a b = true <->
  getFullYear a < getFullYear b
  \/ (getFullYear a = getFullYear b
      /\ (getMonth a < getMonth b
          \/ (getMonth a = getMonth b
              /\ (getDate a < getDate b
                  \/ (getDate a = getDate b /\ msOfDay a < msOfDay b))))).
Proof.
  unfold Date_ltb.
  destruct (Z.ltb_spec (getFullYear a) (getFullYear b));
    destruct (Z.eqb_spec (getFullYear a) (getFullYear b));
    destruct (Z.ltb_spec (getMonth a) (getMonth b));
    destruct (Z.eqb_spec (getMonth a) (getMonth b));
    destruct (Z.ltb_spec (getDate a) (getDate b));
    destruct (Z.eqb_spec (getDate a) (getDate b));
    destruct (Z.ltb_spec (msOfDay a) (msOfDay b));
    cbn; split; intros; try discriminate; try reflexivity; lia.
Qed.

Lemma Date_ltb_false (a b : Date) :
  Date_ltb a b = false <->
  ~ (getFullYear a < getFullYear b
     \/ (getFullYear a = getFullYear b
         /\ (getMonth a < getMonth b
             \/ (getMonth a = getMonth b
                 /\ (getDate a < getDate b
                     \/ (getDate a = getDate b /\ msOfDay a < msOfDay b)))))).
Proof.
  rewrite <- Date_ltb_true. now destruct (Date_ltb a b).
Qed.

(** The newest row of a user is no older than any row of the user. *)
Lemma progresses_findFirst_newest (uid : string) (s : Store) (prog p : Progresses.t) :
  progresses_findFirst uid s = Some prog ->
  In p (progresses s) -> Progresses.userId p = uid ->
  Date_ltb (Progresses.createdAt prog) (Progresses.createdAt p) = false.
Proof.
  unfold progresses_findFirst. intros H Hin Hu.
  set (newer := fun x y : Progresses.t =>
                  Date_ltb (Progresses.createdAt y) (Progresses.createdAt x)) in *.
  assert (Hasym : forall a b, newer a b = true -> newer b a = false).
  { unfold newer. intros a b Hab. apply Date_ltb_true in Hab.
    apply Date_ltb_false. lia. }
  assert (Hneg : forall a b c, newer a b = false -> newer b c = false ->
                               newer a c = false).
  { unfold newer. intros a b c Hab Hbc. apply Date_ltb_false in Hab, Hbc.
    apply Date_ltb_false. lia. }
  assert (Hp : In p (filter (fun q => (Progresses.userId q =? uid)%string)
                            (progresses s))).
  { apply filter_In. split; [assumption|]. now apply String.eqb_eq. }
  exact (maxBy_no_greater newer _ prog Hasym Hneg H p Hp).
Qed.

(** X8.  Two calls of [checkProgress] on the day after the user's newest
    row: the first appends today's row with the lifetime counts, the second
    finds that row as the newest and adds the second attempt to it.  The day
    gets one row, not two, and the rows that were there are unchanged. *)
Theorem checkProgress_rollover_then_same_day
  (now : Date) (uid : string) (b1 b2 : bool) (w : World)
  (user : Users.t) (prog : Progresses.t) :
  users_findUnique uid (db w) = Some user ->
  progresses_findFirst uid (db w) = Some prog ->
  dayBefore (Progresses.createdAt prog) now ->
  progresses
    (db (snd (checkProgress now uid b2 (snd (checkProgress now uid b1 w)))))
  = progresses (db w)
    ++ [Progresses.mk (nextId (map Progresses.id (progresses (db w)))) uid
          (Z.of_nat (List.length (correctAttemptsOf uid (db w)))
           + (if b2 then 1 else 0))
          (Z.of_nat (List.length (attemptsOf uid (db w))) + 1)
          now].
Proof.
  intros Eu Ep Hday.
  destruct (lifetime_counts uid (db w)) as [Hc Ht].
  set (n := nextId (map Progresses.id (progresses (db w)))).
  set (row := Progresses.mk n uid
                (Z.of_nat (List.length (correctAttemptsOf uid (db w))))
                (Z.of_nat (List.length (attemptsOf uid (db w)))) now).
  assert (H1 : snd (checkProgress now uid b1 w)
               = mkWorld (set_progresses (fun t => t ++ [row]) (db w))
                         (sent w) (pending w)).
  { rewrite checkProgress_world, Eu, Ep, (dayBefore_not_sameDay _ _ Hday).
    unfold row, n. now rewrite Hc, Ht. }
  rewrite H1. rewrite checkProgress_world. cbn [db].
  assert (Eu' : users_findUnique uid (set_progresses (fun t => t ++ [row]) (db w))
                = Some user) by exact Eu.
  assert (Ep' : progresses_findFirst uid (set_progresses (fun t => t ++ [row]) (db w))
                = Some row).
  { unfold progresses_findFirst. cbn [progresses set_progresses].
    rewrite filter_app. cbn [filter Progresses.userId row].
    rewrite String.eqb_refl. apply maxBy_last.
    intros y Hy. apply filter_In in Hy. destruct Hy as [Hin He].
    apply String.eqb_eq in He.
    pose proof (progresses_findFirst_newest _ _ _ _ Ep Hin He) as Hle.
    apply Date_ltb_false in Hle. apply Date_ltb_true.
    unfold dayBefore in Hday. cbn [Progresses.createdAt row]. lia. }
  rewrite Eu', Ep'.
  assert (Hsame : sameDay (Progresses.createdAt row) now = true).
  { apply sameDay_true. auto. }
  rewrite Hsame. cbn [db progresses set_progresses].
  rewrite map_app. f_equal.
  - rewrite <- (map_id (progresses (db w))) at 2.
    apply map_ext_in. intros p Hp. unfold bumped.
    pose proof (nextId_fresh _ _ (in_map Progresses.id _ _ Hp)) as Hlt.
    fold n in Hlt. cbn [Progresses.id row].
    destruct (Nat.eqb_spec (Progresses.id p) n); [lia|reflexivity].
  - cbn [map]. unfold bumped. cbn [Progresses.id row]. rewrite Nat.eqb_refl.
    cbn. destruct b2; f_equal; f_equal; lia.
Qed.

Lemma checkProgress_rollover_then_same_day_witness :
  progresses
    (db (snd (checkProgress sample_now "alice" false
                (snd (checkProgress sample_now "alice" true world_yesterday)))))
  = [bucket_yesterday; Progresses.mk 2 "alice" 2 5 sample_now].
Proof.
  rewrite (checkProgress_rollover_then_same_day sample_now "alice" true false
             world_yesterday alice bucket_yesterday eq_refl eq_refl).
  - reflexivity.
  - right. cbn. lia.
Defined.

Lemma runTasks_progresses_unchanged (now : Date) (uid : string) (isCorrect : bool)
  (row : SolveHistories.t) (fates : list Fate) (w : World) :
  progresses_findFirst uid (db w) = None ->
  progresses
    (db (runTasks now fates [SolveHistoriesCreate row; CheckProgress uid isCorrect] w))
  = progresses (db w).
Proof.
  intros Hnone.
  assert (Hcp : forall w0, progresses_findFirst uid (db w0) = None ->
                           snd (checkProgress now uid isCorrect w0) = w0).
  { intros w0 H0. rewrite checkProgress_world, H0.
    now destruct (users_findUnique uid (db w0)). }
  assert (Hcr : forall f, progresses_findFirst uid
                            (db (runTask now f (SolveHistoriesCreate row) w)) = None
                          /\ progresses (db (runTask now f (SolveHistoriesCreate row) w))
                             = progresses (db w)).
  { intros [|]; cbn; auto. }
  destruct fates as [|f1 [|f2 fates]]; cbn [runTasks].
  - destruct (Hcr Completes) as [Hn Hp].
    cbn [runTask] in *. now rewrite (Hcp _ Hn).
  - destruct (Hcr f1) as [Hn Hp].
    cbn [runTask] in *. now rewrite (Hcp _ Hn).
  - destruct (Hcr f1) as [Hn Hp].
    destruct f2; cbn [runTask]; [now rewrite (Hcp _ Hn)|assumption].
Qed.

(** X9.  A user without any progress row never gets one from grading:
    whatever [generateFeedback] returns for that user and whatever becomes of
    the calls it started, the progress table is afterwards as it was. *)
Theorem generateFeedback_never_creates_first_bucket
  (AI_SERVER_URL : string) (now : Date)
  (postGenerateFeedback : FeedbackForm -> string + FeedbackData)
  (JSON_stringify : string -> string)
  (problemId : string) (user : Users.t) (voice : MulterFile) (w : World)
  (fates : list Fate) :
  pending w = [] ->
  (forall p, In p (progresses (db w)) -> Progresses.userId p <> Users.id user) ->
  progresses
    (db (snd (serve now
                (generateFeedback AI_SERVER_URL postGenerateFeedback JSON_stringify
                                  problemId user voice)
                fates w)))
  = progresses (db w).
Proof.
  intros Hp Hnone. unfold serve. rewrite generateFeedback_cases.
  destruct (problems_findUnique problemId (Users.id user) (db w)) as [p|].
  - cbn zeta. destruct (postGenerateFeedback _) as [msg|d]; unfold settle; cbn.
    + now rewrite Hp.
    + rewrite Hp. cbn [app].
      rewrite runTasks_progresses_unchanged; [reflexivity|].
      now apply progresses_findFirst_none.
  - unfold settle. cbn. now rewrite Hp.
Qed.

Lemma generateFeedback_never_creates_first_bucket_witness :
  progresses
    (db (snd (serve sample_now
                (generateFeedback "http://ai" grader_up quote "p1" bob sample_voice)
                [Completes; Completes] world_graded)))
  = [bucket_today].
Proof.
  apply (generateFeedback_never_creates_first_bucket
           "http://ai" sample_now grader_up quote "p1" bob sample_voice world_graded
           [Completes; Completes] eq_refl).
  intros p [<-|[]]. discriminate.
Defined.

(** ** More on [checkAndCreateAchievement] *)



Lemma Math_max_ge_r (l r : number) :
  is_NaN l = false -> is_NaN r = false -> num_le r (Math_max l r).
Proof.
  intros Hl Hr. destruct (js_gt r l) eqn:E.
  - rewrite (Math_max_gt _ _ E). now apply num_le_refl.
  - rewrite (Math_max_not_gt _ _ Hl Hr E).
    apply js_lt_false_le; assumption.
Qed.

(** A call with a rate that is not above the user's level changes nothing. *)
Lemma checkAndCreateAchievement_not_above (uid : string) (r l : number) (w : World) :
  level_of uid (db w) = Some l -> num_le r l ->
  snd (checkAndCreateAchievement uid r w) = w.
Proof.
  intros Hl Hle. rewrite checkAndCreateAchievement_world.
  unfold level_of in Hl.
  destruct (userAchievements_findFirst uid (db w)) as [[ua a]|]; [|discriminate].
  inversion Hl; subst l. cbn in Hle.
  unfold js_gt. now rewrite (num_le_js_lt _ _ Hle).
Qed.

(** X11.  Calling [checkAndCreateAchievement] a second time with the same
    rate changes nothing: the world after two calls is the world after
    one. *)
Theorem checkAndCreateAchievement_idempotent (uid : string) (r : number) (w : World) :
  levels_ok (db w) -> is_NaN r = false ->
  snd (checkAndCreateAchievement uid r (snd (checkAndCreateAchievement uid r w)))
  = snd (checkAndCreateAchievement uid r w).
Proof.
  intros Hok Hr.
  destruct (checkAndCreateAchievement_step uid r w Hok Hr) as [Hstep _].
  eapply checkAndCreateAchievement_not_above; [exact Hstep|].
  destruct (level_of uid (db w)) as [l|] eqn:El.
  - apply Math_max_ge_r; [|assumption]. eapply level_of_is_number; eauto.
  - now apply num_le_refl.
Qed.

Lemma checkAndCreateAchievement_idempotent_witness :
  snd (checkAndCreateAchievement "alice" (Fin (2 # 3))
         (snd (checkAndCreateAchievement "alice" (Fin (2 # 3)) world_alice)))
  = snd (checkAndCreateAchievement "alice" (Fin (2 # 3)) world_alice).
Proof.
  apply checkAndCreateAchievement_idempotent; [intros a []|reflexivity].
Defined.

Lemma include_linksOf (u : string) (s : Store) :
  userAchievements_include u s
  = flat_map (fun ua => match achievements_find (UserAchievements.achievementId ua) s with
                        | Some a => [(ua, a)]
                        | None => []
                        end)
             (linksOf u s).
Proof.
  unfold userAchievements_include, linksOf.
  induction (userAchievements s) as [|lk r IH]; [reflexivity|].
  cbn [flat_map filter]. rewrite IH.
  destruct (UserAchievements.userId lk =? u)%string; reflexivity.
Qed.

Lemma achievements_find_kept (v : string) (r : number) (w : World) (j : nat) :
  achievements_find j (db w) <> None ->
  achievements_find j (db (snd (checkAndCreateAchievement v r w))) <> None.
Proof.
  intros Hj. rewrite checkAndCreateAchievement_world.
  destruct (userAchievements_findFirst v (db w)) as [[ua a]|].
  - destruct (js_gt r (Achievements.level a)); [|assumption].
    cbn [db]. rewrite achievements_find_updated.
    now destruct (achievements_find j (db w)).
  - cbn zeta. unfold achievements_find in *.
    cbn [db achievements set_userAchievements set_achievements].
    rewrite find_append. now destruct (find _ (achievements (db w))).
Qed.

Lemma linksOf_after (u v : string) (r : number) (w : World) :
  linksOf u (db (snd (checkAndCreateAchievement v r w)))
  = match userAchievements_findFirst v (db w) with
    | Some _ => linksOf u (db w)
    | None =>
        linksOf u (db w)
        ++ (if (v =? u)%string
            then [UserAchievements.mk v (nextId (map Achievements.id (achievements (db w))))]
            else [])
    end.
Proof.
  rewrite checkAndCreateAchievement_world.
  destruct (userAchievements_findFirst v (db w)) as [[ua a]|].
  - now destruct (js_gt r (Achievements.level a)).
  - cbn zeta. unfold linksOf. cbn [db userAchievements set_userAchievements].
    rewrite filter_app. cbn [filter UserAchievements.userId].
    now destruct (v =? u)%string.
Qed.

Lemma one_link_kept (u v : string) (r : number) (w : World) :
  one_link u (db w) -> one_link u (db (snd (checkAndCreateAchievement v r w))).
Proof.
  intros (lk & Hl & Hf).
  exists lk. split; [|now apply achievements_find_kept].
  rewrite linksOf_after.
  destruct (userAchievements_findFirst v (db w)) as [x|] eqn:E; [assumption|].
  destruct (String.eqb_spec v u) as [->|_]; [|now rewrite app_nil_r].
  exfalso. unfold userAchievements_findFirst in E. apply maxBy_None in E.
  rewrite include_linksOf, Hl in E. cbn in E.
  now destruct (achievements_find (UserAchievements.achievementId lk) (db w)).
Qed.

Lemma one_link_made (u : string) (r : number) (w : World) :
  linksOf u (db w) = [] ->
  one_link u (db (snd (checkAndCreateAchievement u r w))).
Proof.
  intros Hl.
  assert (E : userAchievements_findFirst u (db w) = None).
  { unfold userAchievements_findFirst. now rewrite include_linksOf, Hl. }
  exists (UserAchievements.mk u (nextId (map Achievements.id (achievements (db w))))).
  split.
  - now rewrite linksOf_after, E, Hl, String.eqb_refl.
  - rewrite checkAndCreateAchievement_world, E. cbn zeta.
    unfold achievements_find.
    cbn [db achievements set_userAchievements set_achievements
         UserAchievements.achievementId].
    rewrite find_append.
    destruct (find _ (achievements (db w))); [discriminate|].
    cbn. now rewrite Nat.eqb_refl.
Qed.

Lemma evaluateAll_one_link_kept (u : string) (calls : list (string * number)) :
  forall w, one_link u (db w) -> one_link u (db (evaluateAll calls w)).
Proof.
  induction calls as [|[v r] cs IH]; intros w H; [assumption|].
  cbn [evaluateAll fold_left fst snd]. apply IH. now apply one_link_kept.
Qed.

(** X12.  A user gets one achievement link and never a second: starting
    without a link, after any sequence of calls that has a call for the
    user, whatever the rates and whoever the other calls are for, the user
    has exactly one link, and it refers to an achievement on record. *)
Theorem one_achievement_link_per_user
  (u : string) (calls : list (string * number)) (w : World) :
  linksOf u (db w) = [] ->
  In u (map fst calls) ->
  one_link u (db (evaluateAll calls w)).
Proof.
  revert w. induction calls as [|[v r] cs IH]; intros w Hl Hin; [contradiction|].
  cbn [evaluateAll fold_left fst snd].
  destruct (String.eqb_spec v u) as [->|Hne].
  - apply evaluateAll_one_link_kept. now apply one_link_made.
  - destruct Hin as [Hin|Hin]; [contradiction|].
    apply IH; [|assumption].
    rewrite linksOf_after.
    destruct (userAchievements_findFirst v (db w)); [assumption|].
    destruct (String.eqb_spec v u); [contradiction|now rewrite app_nil_r].
Qed.

Lemma one_achievement_link_per_user_witness :
  one_link "alice"
    (db (evaluateAll [("bob", Fin 1); ("alice", Fin (1 # 3)); ("alice", Fin (2 # 3))]
                     world_alice)).
Proof.
  apply one_achievement_link_per_user; [reflexivity|].
  right. left. reflexivity.
Defined.

Lemma flat_map_ext_In {A B} (f g : A -> list B) (l : list A) :
  (forall x, In x l -> f x = g x) -> flat_map f l = flat_map g l.
Proof.
  induction l as [|a r IH]; intros H; [reflexivity|].
  cbn [flat_map]. rewrite (H a (or_introl eq_refl)).
  rewrite IH; [reflexivity|]. intros x Hx. apply H. now right.
Qed.

Lemma achievements_find_id (j : nat) (s : Store) (a : Achievements.t) :
  achievements_find j s = Some a -> Achievements.id a = j.
Proof.
  unfold achievements_find. intros H. apply find_some in H.
  now apply Nat.eqb_eq.
Qed.

(** X13.  As long as every link refers to an achievement on record and no
    achievement is linked to two users -- which [checkAndCreateAchievement]
    maintains -- a call for one user leaves the best achievement of every
    other user exactly as it was. *)
Theorem checkAndCreateAchievement_isolated (u : string) (r : number) (w : World) :
  links_wf (db w) ->
  let w' := snd (checkAndCreateAchievement u r w) in
  links_wf (db w')
  /\ (forall v, v <> u ->
                userAchievements_findFirst v (db w')
                = userAchievements_findFirst v (db w)).
Proof.
  intros [Hres Hun]. cbn zeta. rewrite checkAndCreateAchievement_world.
  destruct (userAchievements_findFirst u (db w)) as [[ua a]|] eqn:E.
  - destruct (js_gt r (Achievements.level a)); [|split; [split|]; auto].
    apply maxBy_In in E. apply include_In in E. destruct E as (Hua & Huu & Hfa).
    pose proof (achievements_find_id _ _ _ Hfa) as Hida.
    cbn [db]. split; [split|].
    + intros lk Hlk. cbn in Hlk. rewrite achievements_find_updated.
      specialize (Hres lk Hlk).
      now destruct (achievements_find (UserAchievements.achievementId lk) (db w)).
    + exact Hun.
    + intros v Hv. unfold userAchievements_findFirst. f_equal.
      unfold userAchievements_include. cbn [userAchievements set_achievements].
      apply flat_map_ext_In. intros lk Hlk.
      destruct (String.eqb_spec (UserAchievements.userId lk) v) as [Hlv|];
        [|reflexivity].
      rewrite achievements_find_updated.
      destruct (achievements_find (UserAchievements.achievementId lk) (db w))
        as [b|] eqn:Eb; [|reflexivity].
      cbn [option_map]. unfold updated.
      pose proof (achievements_find_id _ _ _ Eb) as Hidb.
      destruct (Nat.eqb_spec (Achievements.id b) (Achievements.id a)) as [Hid|];
        [|reflexivity].
      exfalso. apply Hv. rewrite <- Hlv, <- Huu.
      apply Hun; auto. congruence.
  - cbn zeta. set (n := nextId (map Achievements.id (achievements (db w)))).
    assert (Hfresh : achievements_find n (db w) = None)
      by apply achievements_find_fresh.
    assert (Hkeep : forall j s0,
              achievements_find j
                (set_userAchievements (fun l => l ++ [UserAchievements.mk u n])
                   (set_achievements
                      (fun l => l ++ [Achievements.mk n (achievement_title r)
                                        (achievement_description r) r]) s0))
              = match achievements_find j s0 with
                | Some x => Some x
                | None => if Nat.eqb n j
                          then Some (Achievements.mk n (achievement_title r)
                                       (achievement_description r) r)
                          else None
                end).
    { intros j s0. unfold achievements_find. cbn. now rewrite find_append. }
    cbn [db]. split; [split|].
    + intros lk Hlk. cbn in Hlk. apply in_app_or in Hlk.
      rewrite Hkeep.
      destruct Hlk as [Hlk|[<-|[]]].
      * specialize (Hres lk Hlk).
        now destruct (achievements_find (UserAchievements.achievementId lk) (db w)).
      * cbn [UserAchievements.achievementId]. rewrite Hfresh, Nat.eqb_refl.
        discriminate.
    + intros l1 l2 H1 H2 Heq. cbn in H1, H2.
      apply in_app_or in H1, H2.
      destruct H1 as [H1|[<-|[]]], H2 as [H2|[<-|[]]]; auto.
      * exfalso. apply (Hres l1 H1). rewrite Heq. exact Hfresh.
      * exfalso. apply (Hres l2 H2). rewrite <- Heq. exact Hfresh.
    + intros v Hv. unfold userAchievements_findFirst. f_equal.
      unfold userAchievements_include.
      cbn [userAchievements set_userAchievements set_achievements].
      rewrite flat_map_app. cbn [flat_map UserAchievements.userId].
      destruct (String.eqb_spec u v) as [Huv|_]; [congruence|].
      rewrite !app_nil_r. apply flat_map_ext_In. intros lk Hlk.
      destruct (UserAchievements.userId lk =? v)%string; [|reflexivity].
      rewrite Hkeep.
      specialize (Hres lk Hlk).
      now destruct (achievements_find (UserAchievements.achievementId lk) (db w)).
Qed.

Lemma checkAndCreateAchievement_isolated_witness :
  userAchievements_findFirst "bob"
    (db (snd (checkAndCreateAchievement "alice" (Fin 1)
                (evaluateAll [("alice", Fin (1 # 3)); ("bob", Fin (1 # 2))]
                             world_alice))))
  = userAchievements_findFirst "bob"
      (db (evaluateAll [("alice", Fin (1 # 3)); ("bob", Fin (1 # 2))] world_alice)).
Proof.
  apply (checkAndCreateAchievement_isolated "alice" (Fin 1)
           (evaluateAll [("alice", Fin (1 # 3)); ("bob", Fin (1 # 2))] world_alice)).
  - split.
    + intros lk [<-|[<-|[]]]; vm_compute; discriminate.
    + intros l1 l2 [<-|[<-|[]]] [<-|[<-|[]]]; vm_compute; intros H;
        try reflexivity; discriminate H.
  - discriminate.
Defined.

(** ** More on [generateProblem] *)



(** ** The intermediate revision *)

Lemma Intermediate_generateProblem_steps
  (AI_SERVER_URL : string) (now : Date)
  (postGenerateProblem : UserInfo -> string + ProblemData)
  (userId : string) (w : World) (user : Users.t) :
  users_findUnique userId (db w) = Some user ->
  let rate := answerRate (solveHistories_findMany userId (db w)) in
  let data :=
    mkUserInfo
      (Z.abs ((getFullYear now - getFullYear (Users.birth user)) * 12
              + (getMonth now - getMonth (Users.birth user))))
      rate (Users.interest user) "초급" None (ParentFeedbacksQuery userId) in
  let w2 :=
    mkWorld (db w)
            (sent w ++ [mkRequest (AI_SERVER_URL ++ "/chat/generate_problem")%string
                                  (Json data)])
            (pending w) in
  Intermediate.generateProblem AI_SERVER_URL now postGenerateProblem userId w =
    match postGenerateProblem data with
    | inl msg => (Throw (AxiosError msg), w2)
    | inr d =>
        if existsb (fun p => Problems.id p =? pd_id d)%string (problems (db w2))
        then (Throw (PrismaClientKnownRequestError "P2002"), w2)
        else
          (Ok [("problemId", pd_id d); ("question", pd_question d);
               ("image", pd_image d)],
           mkWorld
             (set_problems
                (fun t => t ++ [Problems.mk (pd_id d) userId (pd_question d)
                                            (pd_answer d) (pd_image_path d)
                                            (pd_whole_text d)])
                (db w2))
             (sent w2) (pending w2))
    end.
Proof.
  intros Eu rate data w2.
  pose proof (users_findUnique_id _ _ _ Eu) as Hid.
  unfold Intermediate.generateProblem, bind, query. cbn. rewrite Eu. cbn.
  rewrite Hid. unfold post_problem. cbn.
  fold (countCorrect (solveHistories_findMany userId (db w))).
  fold (answerRate (solveHistories_findMany userId (db w))). fold rate.
  unfold w2, data.
  destruct (postGenerateProblem _) as [msg|d]; cbn; [reflexivity|].
  unfold problems_create. cbn. now destruct (existsb _ _).
Qed.

(** X15.  For a user on record the current [generateProblem] is the
    intermediate one run after [checkAndCreateAchievement]: same result, same
    request, same problem row; the two revisions differ in the achievement
    tables only. *)
Theorem generateProblem_is_intermediate_after_achievement
  (AI_SERVER_URL : string) (now : Date)
  (postGenerateProblem : UserInfo -> string + ProblemData)
  (userId : string) (w : World) (user : Users.t) :
  users_findUnique userId (db w) = Some user ->
  generateProblem AI_SERVER_URL now postGenerateProblem userId w
  = Intermediate.generateProblem AI_SERVER_URL now postGenerateProblem userId
      (snd (checkAndCreateAchievement userId
              (answerRate (attemptsOf userId (db w))) w)).
Proof.
  intros Eu.
  change (attemptsOf userId (db w)) with (solveHistories_findMany userId (db w)).
  set (rate := answerRate (solveHistories_findMany userId (db w))).
  destruct (checkAndCreateAchievement_frame userId rate w)
    as (Hu & _ & Hs & _ & _ & _).
  set (w1 := snd (checkAndCreateAchievement userId rate w)) in *.
  assert (Eu1 : users_findUnique userId (db w1) = Some user)
    by (unfold users_findUnique; now rewrite Hu).
  assert (Hh : solveHistories_findMany userId (db w1)
               = solveHistories_findMany userId (db w))
    by (unfold solveHistories_findMany; now rewrite Hs).
  rewrite (generateProblem_steps _ _ _ _ _ _ Eu).
  rewrite (Intermediate_generateProblem_steps _ _ _ _ _ _ Eu1).
  cbn zeta. rewrite Hh. reflexivity.
Qed.

Lemma generateProblem_is_intermediate_after_achievement_witness :
  generateProblem "http://ai" sample_now generator_up "alice" world_alice
  = Intermediate.generateProblem "http://ai" sample_now generator_up "alice"
      (snd (checkAndCreateAchievement "alice"
              (answerRate (attemptsOf "alice" (db world_alice))) world_alice)).
Proof.
  exact (generateProblem_is_intermediate_after_achievement
           "http://ai" sample_now generator_up "alice" world_alice alice eq_refl).
Defined.

(** X16.  The intermediate [generateProblem] never writes an achievement,
    and a call that fails leaves every table as it was. *)
Theorem Intermediate_generateProblem_failure_changes_nothing
  (AI_SERVER_URL : string) (now : Date)
  (postGenerateProblem : UserInfo -> string + ProblemData)
  (userId : string) (w : World) :
  let run := Intermediate.generateProblem AI_SERVER_URL now postGenerateProblem
                                          userId w in
  achievements (db (snd run)) = achievements (db w)
  /\ userAchievements (db (snd run)) = userAchievements (db w)
  /\ (forall e, fst run = Throw e -> db (snd run) = db w).
Proof.
  cbn zeta.
  destruct (users_findUnique userId (db w)) as [user|] eqn:Eu.
  - rewrite (Intermediate_generateProblem_steps _ _ _ _ _ _ Eu). cbn zeta.
    destruct (postGenerateProblem _) as [msg|d]; [|destruct (existsb _ _)];
      cbn; (split; [reflexivity|]); (split; [reflexivity|]);
      intros e H; try reflexivity; discriminate H.
  - unfold Intermediate.generateProblem, bind, query. cbn. rewrite Eu. cbn.
    auto.
Qed.

Lemma Intermediate_generateProblem_failure_changes_nothing_witness :
  db (snd (Intermediate.generateProblem "http://ai" sample_now generator_down
             "alice" world_alice))
  = db world_alice.
Proof.
  destruct (Intermediate_generateProblem_failure_changes_nothing
              "http://ai" sample_now generator_down "alice" world_alice)
    as (_ & _ & H).
  exact (H (AxiosError "Request failed with status code 500") eq_refl).
Defined.

(** ** The earlier revision: the rate and its window *)

Lemma legacy_count_bounds (ps : list Legacy.Problems.t) (acc : Z) :
  acc <= fold_left (fun acc cur => acc + (if truthy (Legacy.Problems.isCorrect cur)
                                          then 1 else 0)) ps acc
      <= acc + Z.of_nat (List.length ps).
Proof.
  revert acc. induction ps as [|p r IH]; intros acc; cbn [fold_left List.length].
  - lia.
  - specialize (IH (acc + (if truthy (Legacy.Problems.isCorrect p) then 1 else 0))).
    destruct (truthy (Legacy.Problems.isCorrect p)); lia.
Qed.

Lemma insertDesc_In (p x : Legacy.Problems.t) (l : list Legacy.Problems.t) :
  In x (Legacy.insertDesc p l) <-> x = p \/ In x l.
Proof.
  induction l as [|q r IH]; cbn [Legacy.insertDesc].
  - cbn. intuition.
  - destruct (Date_ltb _ _); cbn [In]; [rewrite IH|]; intuition.
Qed.

Lemma sortDesc_In (x : Legacy.Problems.t) (l : list Legacy.Problems.t) :
  In x (Legacy.sortDesc l) <-> In x l.
Proof.
  unfold Legacy.sortDesc. induction l as [|p r IH]; cbn [fold_right]; [tauto|].
  rewrite insertDesc_In, IH. cbn. intuition.
Qed.

Lemma insertDesc_length (p : Legacy.Problems.t) (l : list Legacy.Problems.t) :
  List.length (Legacy.insertDesc p l) = S (List.length l).
Proof.
  induction l as [|q r IH]; cbn [Legacy.insertDesc]; [reflexivity|].
  destruct (Date_ltb _ _); cbn [List.length]; [now rewrite IH|reflexivity].
Qed.

Lemma sortDesc_length (l : list Legacy.Problems.t) :
  List.length (Legacy.sortDesc l) = List.length l.
Proof.
  unfold Legacy.sortDesc. induction l as [|p r IH]; cbn [fold_right]; [reflexivity|].
  rewrite insertDesc_length. cbn. now rewrite IH.
Qed.

Lemma notOlder_trans (a b c : Legacy.Problems.t) :
  notOlder a b -> notOlder b c -> notOlder a c.
Proof.
  unfold notOlder. intros H1 H2. apply Date_ltb_false in H1, H2.
  apply Date_ltb_false. lia.
Qed.

Lemma insertDesc_sorted (p : Legacy.Problems.t) (l : list Legacy.Problems.t) :
  StronglySorted notOlder l -> StronglySorted notOlder (Legacy.insertDesc p l).
Proof.
  induction l as [|q r IH]; intros Hs; cbn [Legacy.insertDesc].
  - repeat constructor.
  - inversion Hs as [|? ? Hr Hq]; subst.
    destruct (Date_ltb (Legacy.Problems.createdAt p) (Legacy.Problems.createdAt q))
      eqn:E.
    + constructor; [now apply IH|].
      apply Forall_forall. intros x Hx. apply insertDesc_In in Hx.
      destruct Hx as [->|Hx].
      * unfold notOlder. apply Date_ltb_true in E. apply Date_ltb_false. lia.
      * rewrite Forall_forall in Hq. now apply Hq.
    + constructor; [assumption|].
      constructor; [exact E|].
      apply Forall_forall. intros x Hx. rewrite Forall_forall in Hq.
      eapply notOlder_trans; [exact E|]. now apply Hq.
Qed.

Lemma sortDesc_sorted (l : list Legacy.Problems.t) :
  StronglySorted notOlder (Legacy.sortDesc l).
Proof.
  unfold Legacy.sortDesc. induction l as [|p r IH]; cbn [fold_right].
  - constructor.
  - now apply insertDesc_sorted.
Qed.

Lemma sorted_app_order {A} (R : A -> A -> Prop) (l1 l2 : list A) :
  StronglySorted R (l1 ++ l2) ->
  forall x y, In x l1 -> In y l2 -> R x y.
Proof.
  induction l1 as [|a r IH]; intros Hs x y Hx Hy; [contradiction|].
  cbn in Hs. inversion Hs as [|? ? Hr Ha]; subst.
  destruct Hx as [<-|Hx].
  - rewrite Forall_forall in Ha. apply Ha. apply in_or_app. now right.
  - now apply IH.
Qed.

(** X17.  The window of the earlier revision's rate: at most twenty
    problems, all of them the user's; every problem of the user that is left
    out is no newer than any that is kept; and with twenty problems or fewer
    none is left out. *)
Theorem legacy_findMany_newest_twenty (uid : string) (s : Legacy.Store) :
  let window := Legacy.problems_findMany uid s in
  (List.length window <= 20)%nat
  /\ (forall p, In p window -> In p (legacyProblemsOf uid s))
  /\ (forall p q, In p window -> In q (legacyProblemsOf uid s) -> ~ In q window ->
                  notOlder p q)
  /\ ((List.length (legacyProblemsOf uid s) <= 20)%nat ->
      forall q, In q (legacyProblemsOf uid s) -> In q window).
Proof.
  cbn zeta. unfold Legacy.problems_findMany. fold (legacyProblemsOf uid s).
  set (l := Legacy.sortDesc (legacyProblemsOf uid s)).
  split; [apply firstn_le_length|]. split; [|split].
  - intros p Hp. apply sortDesc_In. fold l.
    rewrite <- (firstn_skipn 20 l). apply in_or_app. now left.
  - intros p q Hp Hq Hnot.
    apply (sorted_app_order notOlder (firstn 20 l) (skipn 20 l)); auto.
    + rewrite firstn_skipn. apply sortDesc_sorted.
    + apply sortDesc_In in Hq. fold l in Hq.
      rewrite <- (firstn_skipn 20 l) in Hq. apply in_app_or in Hq.
      destruct Hq; [contradiction|assumption].
  - intros Hlen q Hq. rewrite firstn_all2.
    + now apply sortDesc_In.
    + unfold l. now rewrite sortDesc_length.
Qed.

Lemma legacy_findMany_newest_twenty_witness :
  In legacy_row_alice (Legacy.problems_findMany "alice" legacy_store_one).
Proof.
  destruct (legacy_findMany_newest_twenty "alice" legacy_store_one)
    as (_ & _ & _ & H).
  apply H.
  - cbn. lia.
  - now left.
Defined.

(** X18.  The earlier revision's rate is [NaN] exactly for the empty
    window; for any other window it is a number between 0 and 1. *)
Theorem legacy_answerRate_NaN_iff_empty (ps : list Legacy.Problems.t) :
  match ps with
  | [] => Legacy.answerRate ps = NaN
  | _ :: _ => unit_rate (Legacy.answerRate ps)
  end.
Proof.
  destruct ps as [|p r]; [reflexivity|].
  unfold Legacy.answerRate. apply js_div_unit.
  - pose proof (legacy_count_bounds (p :: r) 0). lia.
  - cbn [List.length]. lia.
Qed.

(** ** The earlier revision: grading *)



Lemma graded_other (pid : string) (g : LegacyGrading.Graded)
  (p : LegacyGrading.Problems.t) :
  LegacyGrading.Problems.id p <> pid -> LegacyGrading.graded pid g p = p.
Proof.
  intros H. unfold LegacyGrading.graded.
  destruct (String.eqb_spec (LegacyGrading.Problems.id p) pid); [contradiction|reflexivity].
Qed.

(** X20.  When the earlier [generateFeedback] succeeds, the grading is on
    record when it returns: the problem it looked up, owned by the caller,
    now holds the verdict, the saved path and the feedback of the response,
    its other columns unchanged; rows with another id are untouched and no
    row is added or removed. *)
Theorem legacy_generateFeedback_grades_the_row
  (AI_SERVER_URL : string) (JSON_stringify : string -> string)
  (postGenerateFeedback : FeedbackForm -> string + LegacyGrading.Envelope)
  (problemId : string) (user : Users.t) (voice : MulterFile)
  (w : LegacyGrading.World) (resp : LegacyGrading.Envelope) :
  let r := LegacyGrading.generateFeedback AI_SERVER_URL JSON_stringify
             postGenerateFeedback problemId user voice w in
  fst r = Ok resp ->
  let g := LegacyGrading.data resp in
  exists p,
    In p (LegacyGrading.problems w)
    /\ LegacyGrading.Problems.id p = problemId
    /\ LegacyGrading.Problems.userId p = Users.id user
    /\ find (fun q => (LegacyGrading.Problems.id q =? problemId)%string
                      && (LegacyGrading.Problems.userId q =? Users.id user)%string)
            (LegacyGrading.problems (snd r))
       = Some (LegacyGrading.Problems.mk
                 problemId (Users.id user) (LegacyGrading.Problems.question p)
                 (LegacyGrading.Problems.answer p) (LegacyGrading.Problems.imagePath p)
                 (LegacyGrading.Problems.wholeText p)
                 (Some (LegacyGrading.is_correct g))
                 (Some (LegacyGrading.saved_path g))
                 (Some (LegacyGrading.feedback g))
                 (LegacyGrading.Problems.createdAt p))
    /\ List.length (LegacyGrading.problems (snd r))
       = List.length (LegacyGrading.problems w)
    /\ (forall q, LegacyGrading.Problems.id q <> problemId ->
                  (In q (LegacyGrading.problems (snd r))
                   <-> In q (LegacyGrading.problems w))).
Proof.
  cbn zeta. unfold LegacyGrading.generateFeedback.
  destruct (find _ (LegacyGrading.problems w)) as [p|] eqn:E; [|discriminate].
  destruct (postGenerateFeedback _) as [msg|resp'] eqn:Ep; [discriminate|].
  cbn [fst snd]. intros H. inversion H; subst resp'. clear H.
  pose proof (find_some _ _ E) as [Hin He].
  apply andb_true_iff in He. destruct He as [H1 H2].
  apply String.eqb_eq in H1, H2.
  exists p. cbn [LegacyGrading.problems].
  split; [exact Hin|]. split; [exact H1|]. split; [exact H2|].
  split; [|split].
  - rewrite find_map_same.
    + rewrite E. cbn [option_map]. unfold LegacyGrading.graded.
      destruct (String.eqb_spec (LegacyGrading.Problems.id p) problemId);
        [|contradiction].
      rewrite <- H1, <- H2. reflexivity.
    + intros q. unfold LegacyGrading.graded.
      destruct (LegacyGrading.Problems.id q =? problemId)%string eqn:Eq;
        cbn; now rewrite ?Eq.
  - apply length_map.
  - intros q Hq. rewrite in_map_iff. split.
    + intros (q0 & Hq0 & Hin0). unfold LegacyGrading.graded in Hq0.
      destruct (String.eqb_spec (LegacyGrading.Problems.id q0) problemId) as [Hid|_].
      * exfalso. apply Hq. rewrite <- Hq0. exact Hid.
      * now subst q0.
    + intros Hin0. exists q. split; [now apply graded_other|assumption].
Qed.

Lemma legacy_generateFeedback_grades_the_row_witness :
  exists p,
    LegacyGrading.Problems.answer p = "a dinosaur"
    /\ find (fun q => (LegacyGrading.Problems.id q =? "p1")%string
                      && (LegacyGrading.Problems.userId q =? "alice")%string)
            (LegacyGrading.problems
               (snd (LegacyGrading.generateFeedback "http://ai" quote legacy_grader_up
                       "p1" alice sample_voice legacy_grading_world)))
       = Some (LegacyGrading.Problems.mk "p1" "alice"
                 (LegacyGrading.Problems.question p) (LegacyGrading.Problems.answer p)
                 (LegacyGrading.Problems.imagePath p)
                 (LegacyGrading.Problems.wholeText p)
                 (Some true) (Some "voices/1.wav") (Some "Well done")
                 (LegacyGrading.Problems.createdAt p)).
Proof.
  destruct (legacy_generateFeedback_grades_the_row
              "http://ai" quote legacy_grader_up "p1" alice sample_voice
              legacy_grading_world
              (LegacyGrading.mkEnvelope
                 (LegacyGrading.mkGraded true "voices/1.wav" "Well done"))
              eq_refl) as (p & Hin & Hid & _ & Hfind & _).
  exists p. split; [|exact Hfind].
  destruct Hin as [<-|[<-|[]]]; [reflexivity|discriminate Hid].
Defined.



(** ** The rate follows the attempts *)

Lemma Zdiv_Qle (a b c d : Z) :
  0 < b -> 0 < d -> a * d <= c * b ->
  (inject_Z a / inject_Z b <= inject_Z c / inject_Z d)%Q.
Proof.
  intros Hb Hd H.
  rewrite <- (Z2Pos.id b Hb), <- (Z2Pos.id d Hd).
  rewrite <- !Qmake_Qdiv. unfold Qle. cbn [Qnum Qden].
  rewrite !Z2Pos.id by assumption. exact H.
Qed.

Lemma countCorrect_snoc (hs : list SolveHistories.t) (h : SolveHistories.t) :
  countCorrect (hs ++ [h])
  = countCorrect hs + (if truthy (SolveHistories.isCorrect h) then 1 else 0).
Proof.
  unfold countCorrect. rewrite fold_left_app. cbn [fold_left].
  destruct (truthy (SolveHistories.isCorrect h)); lia.
Qed.

(** X22.  One more correct attempt never lowers the rate, and one more
    attempt that is wrong or not yet graded never raises it. *)
Theorem answerRate_follows_attempt (hs : list SolveHistories.t) (h : SolveHistories.t) :
  if truthy (SolveHistories.isCorrect h)
  then num_le (answerRate hs) (answerRate (hs ++ [h]))
  else num_le (answerRate (hs ++ [h])) (answerRate hs).
Proof.
  pose proof (countCorrect_bounds hs) as Hb.
  unfold answerRate. rewrite countCorrect_snoc, length_app. cbn [List.length].
  set (c := countCorrect hs) in *. set (t := Z.of_nat (List.length hs)) in *.
  replace (Z.of_nat (List.length hs + 1)) with (t + 1) by (unfold t; lia).
  assert (Ht : 0 <= t) by (unfold t; lia).
  unfold js_div.
  destruct (Z.eqb_spec (t + 1) 0) as [|_]; [lia|].
  destruct (Z.eqb_spec t 0) as [Ht0|Ht0].
  - assert (c = 0) by lia. subst c. rewrite H, Ht0.
    destruct (truthy (SolveHistories.isCorrect h)); cbn; discriminate.
  - destruct (truthy (SolveHistories.isCorrect h)); cbn [num_le];
      apply Qred_le; apply Zdiv_Qle; nia.
Qed.

(** ** [generateProblem] and the level *)

(** X23.  Whether [generateProblem] succeeds or fails after the user was
    found, the user's best level is afterwards the maximum of the level
    before and the rate sent in the profile, hence never below that rate. *)
Theorem generateProblem_level_covers_rate
  (AI_SERVER_URL : string) (now : Date)
  (postGenerateProblem : UserInfo -> string + ProblemData)
  (userId : string) (w : World) (user : Users.t) :
  users_findUnique userId (db w) = Some user ->
  levels_ok (db w) ->
  let rate := answerRate (attemptsOf userId (db w)) in
  let w' := snd (generateProblem AI_SERVER_URL now postGenerateProblem userId w) in
  level_of userId (db w')
  = Some (match level_of userId (db w) with
          | Some l => Math_max l rate
          | None => rate
          end)
  /\ exists l', level_of userId (db w') = Some l' /\ num_le rate l'.
Proof.
  intros Eu Hok rate w'.
  pose proof (answerRate_is_number (attemptsOf userId (db w))) as Hr. fold rate in Hr.
  destruct (checkAndCreateAchievement_step userId rate w Hok Hr) as [Hstep _].
  assert (Hsame : level_of userId (db w')
                  = level_of userId (db (snd (checkAndCreateAchievement userId rate w)))).
  { unfold w'. rewrite (generateProblem_steps _ _ _ _ _ _ Eu). cbn zeta.
    destruct (postGenerateProblem _) as [msg|d]; [|destruct (existsb _ _)];
      reflexivity. }
  rewrite Hsame, Hstep. split; [reflexivity|].
  eexists. split; [reflexivity|].
  destruct (level_of userId (db w)) as [l|] eqn:El.
  - apply Math_max_ge_r; [|assumption]. eapply level_of_is_number; eauto.
  - now apply num_le_refl.
Qed.

Lemma generateProblem_level_covers_rate_witness :
  level_of "alice"
    (db (snd (generateProblem "http://ai" sample_now generator_up "alice" world_today)))
  = Some (Fin (1 # 2)).
Proof.
  assert (H0 : levels_ok (db world_today)) by (intros a []).
  destruct (generateProblem_level_covers_rate "http://ai" sample_now generator_up
              "alice" world_today alice eq_refl H0) as [H _].
  exact H.
Defined.

(** ** A graded answer, end to end *)



